(** * MoneyPrinterTurbo: task state store and generation orchestrator

    A shallow embedding of [app/services/state.py], [app/config.py] and
    [app/services/llm.py], with the fragment of the Python runtime the three
    files rely on, and the properties established about them.

    Conventions.
    - A Python [str] is a Rocq [string] holding the UTF-8 bytes of the text.
      Every text operation the code uses ([in], [replace] of an ASCII
      character, the two regular expressions, [split]/[join] on an ASCII
      separator) gives the same result on the bytes as on the code points,
      since UTF-8 is self-synchronising.
    - A Python [int] is a [Z].
    - A dict used as a record or as a table is a [gmap]; dict equality in
      Python ignores insertion order, as [gmap] equality does.
    - Effects are explicit: the functions of [state.py] pass the store (and
      the clock) along, the functions of [llm.py] live in a state-and-error
      monad over a world that holds the provider configuration, the replies
      of the external services and the trace of observable events.
    - Library functions are modelled on the inputs listed with each of
      them; what the interpreter does on the other inputs is a parameter
      ([Py.runtime]) of the functions that call them, and the statements
      hold for every value of it. *)

From Stdlib Require Import ZArith String Ascii List Lia Bool.
From Stdlib Require Import DecimalString DecimalZ DecimalFacts.
From stdpp Require Import gmap strings.

Set Warnings "-register-all".
#[local] Arguments String.append : simpl nomatch.
Open Scope string_scope.
Open Scope Z_scope.

(** ** Python values and text *)

Module Py.

(** The values that travel through the two files. *)
Inductive pyval : Type :=
| VNone : pyval
| VBool (b : bool) : pyval
| VInt (z : Z) : pyval
| VStr (s : string) : pyval
| VList (l : list pyval) : pyval.

(** Exceptions, by class; the payload is [str(e)]. *)
Inductive exn : Type :=
| TypeError (msg : string)
| ValueError (msg : string)
| RuntimeError (msg : string)
| NameError (msg : string)
| KeyError (msg : string)
| RequestException (msg : string)
| OtherError (msg : string).

Definition exn_str (e : exn) : string :=
  match e with
  | TypeError m | ValueError m | RuntimeError m | NameError m
  | KeyError m | RequestException m | OtherError m => m
  end.

Inductive result (A : Type) : Type :=
| Ok (a : A)
| Raise (e : exn).
Arguments Ok {A} a.
Arguments Raise {A} e.

(** Characters that cannot be typed inside a string literal here. *)
Definition LF : ascii := "010"%char.
Definition CR : ascii := "013"%char.
Definition TAB : ascii := "009"%char.
Definition DQ : ascii := "034"%char.
Definition SQ : ascii := "039"%char.
Definition BSL : ascii := "092"%char.
Definition nl : string := String LF EmptyString.
Definition dq : string := String DQ EmptyString.

(** [bool(v)]: Python truthiness. *)
Definition truthy (v : pyval) : bool :=
  match v with
  | VNone => false
  | VBool b => b
  | VInt z => negb (z =? 0)
  | VStr s => negb (String.eqb s EmptyString)
  | VList l => match l with [] => false | _ => true end
  end.

(** [needle in hay] on text. *)
Fixpoint contains (needle hay : string) : bool :=
  String.prefix needle hay
  || match hay with
     | EmptyString => false
     | String _ rest => contains needle rest
     end.

(** [s.replace(old, new)] for a one-character [old]. *)
Fixpoint replace (old : ascii) (new : string) (s : string) : string :=
  match s with
  | EmptyString => EmptyString
  | String c r =>
      if Ascii.eqb c old then new ++ replace old new r
      else String c (replace old new r)
  end.

(** [s.split(sep)] for a non-empty separator: the pieces between the
    non-overlapping occurrences of [sep], found left to right.  [skip]
    counts the characters of a separator still to be passed over. *)
Fixpoint split_go (sep : string) (skip : nat) (s : string) : list string :=
  match s with
  | EmptyString => [EmptyString]
  | String c r =>
      match skip with
      | S k => split_go sep k r
      | O =>
          if String.prefix sep s
          then EmptyString :: split_go sep (Nat.pred (String.length sep)) r
          else match split_go sep 0 r with
               | h :: t => String c h :: t
               | [] => [String c EmptyString]
               end
      end
  end.

Definition split (sep s : string) : list string := split_go sep 0 s.

(** [sep.join(parts)]. *)
Definition join (sep : string) (parts : list string) : string :=
  String.concat sep parts.

(** *** Regular expressions of the form [open .* close]

    [\[.*\]] and [\(.*\)] (and [\[.*]]) match an opening character, then as
    many characters other than a line feed as possible, then the closing
    character: the match starting at an opening character runs to the last
    closing character before the next line feed. *)

(** Number of characters of [s], counted from its start, up to and
    including the last [close] that precedes the first line feed. *)
Fixpoint greedy_span (close : ascii) (s : string) : option nat :=
  match s with
  | EmptyString => None
  | String c r =>
      if Ascii.eqb c LF then None
      else match greedy_span close r with
           | Some n => Some (S n)
           | None => if Ascii.eqb c close then Some 1%nat else None
           end
  end.

(** [re.sub] of [open .* close] by the empty text: every leftmost match is removed and the
    scan resumes after it.  [skip] counts the characters of the current
    match still to be dropped. *)
Fixpoint re_sub_go (open close : ascii) (skip : nat) (s : string) : string :=
  match s with
  | EmptyString => EmptyString
  | String c r =>
      match skip with
      | S k => re_sub_go open close k r
      | O =>
          if Ascii.eqb c open then
            match greedy_span close r with
            | Some n => re_sub_go open close n r
            | None => String c (re_sub_go open close 0 r)
            end
          else String c (re_sub_go open close 0 r)
      end
  end.

Definition re_sub_span (open close : ascii) (s : string) : string :=
  re_sub_go open close 0 s.

Fixpoint take (n : nat) (s : string) : string :=
  match n, s with
  | S k, String c r => String c (take k r)
  | _, _ => EmptyString
  end.

(** [re.search(open .* close, s)]: the text of the leftmost match. *)
Fixpoint re_search_span (open close : ascii) (s : string) : option string :=
  match s with
  | EmptyString => None
  | String c r =>
      if Ascii.eqb c open then
        match greedy_span close r with
        | Some n => Some (String c (take n r))
        | None => re_search_span open close r
        end
      else re_search_span open close r
  end.

(** *** [str.strip()]

    Python strips the characters for which [str.isspace] holds.  On UTF-8
    bytes these are the one-byte characters U+0009..U+000D, U+001C..U+001F
    and U+0020, the two-byte U+0085 and U+00A0, and the three-byte U+1680,
    U+2000..U+200A, U+2028, U+2029, U+202F, U+205F and U+3000. *)
Definition is_ws1 (a : ascii) : bool :=
  let n := nat_of_ascii a in
  ((9 <=? n) && (n <=? 13) || (28 <=? n) && (n <=? 32))%nat.

Definition is_ws2 (a b : ascii) : bool :=
  let x := nat_of_ascii a in
  let y := nat_of_ascii b in
  ((x =? 194) && ((y =? 133) || (y =? 160)))%nat.

Definition is_ws3 (a b c : ascii) : bool :=
  let x := nat_of_ascii a in
  let y := nat_of_ascii b in
  let z := nat_of_ascii c in
  ((x =? 225) && (y =? 154) && (z =? 128)
   || (x =? 226) && (y =? 128)
      && ((128 <=? z) && (z <=? 138) || (z =? 168) || (z =? 169) || (z =? 175))
   || (x =? 226) && (y =? 129) && (z =? 159)
   || (x =? 227) && (y =? 128) && (z =? 128))%nat.

Fixpoint lstrip (s : string) : string :=
  match s with
  | EmptyString => EmptyString
  | String a r =>
      if is_ws1 a then lstrip r
      else match r with
           | EmptyString => s
           | String b r2 =>
               if is_ws2 a b then lstrip r2
               else match r2 with
                    | EmptyString => s
                    | String c r3 => if is_ws3 a b c then lstrip r3 else s
                    end
           end
  end.

(** The same scan on the reversed text: the bytes of a character come last
    byte first. *)
Fixpoint lstrip_rev (s : string) : string :=
  match s with
  | EmptyString => EmptyString
  | String a r =>
      if is_ws1 a then lstrip_rev r
      else match r with
           | EmptyString => s
           | String b r2 =>
               if is_ws2 b a then lstrip_rev r2
               else match r2 with
                    | EmptyString => s
                    | String c r3 => if is_ws3 c b a then lstrip_rev r3 else s
                    end
           end
  end.

Fixpoint rev_onto (s acc : string) : string :=
  match s with
  | EmptyString => acc
  | String c r => rev_onto r (String c acc)
  end.

Definition srev (s : string) : string := rev_onto s EmptyString.

Definition rstrip (s : string) : string := srev (lstrip_rev (srev s)).

Definition strip (s : string) : string := rstrip (lstrip s).

(** *** [str(int)] and [int(str)] *)

(** The decimal digits of [z], with a leading [-] below zero. *)
Definition str_of_Z (z : Z) : string := NilZero.string_of_int (Z.to_int z).

(** CPython's default limit on the number of digits of an integer that is
    converted to or from decimal text ([sys.int_info.default_max_str_digits]). *)
Definition MAX_STR_DIGITS : Z := 4300.

(** The number of digits of a numeral, its sign left out. *)
Definition numeral_digits (s : string) : Z :=
  match s with
  | String "-" r => Z.of_nat (String.length r)
  | _ => Z.of_nat (String.length s)
  end.

Definition int_fits (z : Z) : bool := numeral_digits (str_of_Z z) <=? MAX_STR_DIGITS.

Definition INT_LIMIT_ERROR : exn :=
  ValueError ("Exceeds the limit (4300 digits) for integer string conversion; "
              ++ "use sys.set_int_max_str_digits() to increase the limit").

Definition is_digit (a : ascii) : bool :=
  let n := nat_of_ascii a in ((48 <=? n) && (n <=? 57))%nat.

Fixpoint all_chars (p : ascii -> bool) (s : string) : bool :=
  match s with
  | EmptyString => true
  | String c r => p c && all_chars p r
  end.

Fixpoint any_char (p : ascii -> bool) (s : string) : bool :=
  match s with
  | EmptyString => false
  | String c r => p c || any_char p r
  end.

Definition is_ascii (a : ascii) : bool := (nat_of_ascii a <? 128)%nat.

(** *** [repr] and [str] of values *)

Definition hex_digit (n : nat) : ascii :=
  ascii_of_nat (if (n <? 10)%nat then 48 + n else 87 + n).

(** One character of [repr(s)] inside the quotes [q].  For a non-ASCII
    character Python copies it when it is printable and writes an escape
    otherwise; the model copies it (an escape reads back as the same
    character, so what is decoded from the text is the same). *)
Definition repr_char (q c : ascii) : string :=
  let n := nat_of_ascii c in
  if Ascii.eqb c q || Ascii.eqb c BSL then String BSL (String c EmptyString)
  else if Ascii.eqb c TAB then String BSL "t"
  else if Ascii.eqb c LF then String BSL "n"
  else if Ascii.eqb c CR then String BSL "r"
  else if ((n <? 32) || (n =? 127))%nat
       then String BSL (String "x" (String (hex_digit (n / 16))
                                      (String (hex_digit (n mod 16)) EmptyString)))
  else String c EmptyString.

Fixpoint repr_body (q : ascii) (s : string) : string :=
  match s with
  | EmptyString => EmptyString
  | String c r => repr_char q c ++ repr_body q r
  end.

(** Double quotes are used when the text has a single quote and no double
    quote, single quotes otherwise. *)
Definition repr_quote (s : string) : ascii :=
  if any_char (Ascii.eqb SQ) s && negb (any_char (Ascii.eqb DQ) s) then DQ else SQ.

Definition repr_str (s : string) : string :=
  let q := repr_quote s in
  String q (repr_body q s ++ String q EmptyString).

(** The text of [repr(v)]. *)
Fixpoint py_repr (v : pyval) : string :=
  match v with
  | VNone => "None"
  | VBool true => "True"
  | VBool false => "False"
  | VInt z => str_of_Z z
  | VStr s => repr_str s
  | VList l => "[" ++ join ", " (map py_repr l) ++ "]"
  end.

(** Whether every integer inside [v] is within the digit limit. *)
Fixpoint printable (v : pyval) : bool :=
  match v with
  | VInt z => int_fits z
  | VList l => forallb printable l
  | _ => true
  end.

(** [str(v)]: a text is itself, anything else prints as its [repr]
    ([py_repr] above gives the text); printing an integer past the digit
    limit raises [ValueError], also inside a list. *)
Definition py_str (v : pyval) : result string :=
  if printable v then
    Ok match v with
       | VStr s => s
       | _ => py_repr v
       end
  else Raise INT_LIMIT_ERROR.

(** *** [ast.literal_eval], [str.isdigit] and [int(str)]

    [ast.literal_eval] reads a Python literal.  The full grammar of
    literals is not modelled: [literal_fragment] decides the texts listed
    here and answers [Unmodelled] on every other one.
    - [Literal v]: the text of an integer of at most 4300 decimal digits
      with an optional [-] ([00] and [-0] read as 0), of [None], [True],
      [False], of a string literal in single or double quotes whose escapes
      are a backslash followed by a backslash, by either quote, by n, r or
      t, or by x and two hexadecimal digits below 80, or of a list of such
      string literals separated by a comma and a space;
    - [Malformed] (the call raises [ValueError] or [SyntaxError]): the empty
      text, at most 4300 decimal digits with a superfluous leading zero, an
      identifier other than the three constants, a text that starts with
      [/].
    What the interpreter does on the other texts is a parameter, the
    [runtime] below. *)
Inductive literal_result : Type :=
| Literal (v : pyval)
| Malformed
| Unmodelled.

Definition unhex (a : ascii) : option nat :=
  let n := nat_of_ascii a in
  if is_digit a then Some (n - 48)%nat
  else if ((97 <=? n) && (n <=? 102))%nat then Some (n - 87)%nat
  else if ((65 <=? n) && (n <=? 70))%nat then Some (n - 55)%nat
  else None.

Definition simple_escape (e : ascii) : option ascii :=
  if Ascii.eqb e BSL then Some BSL
  else if Ascii.eqb e SQ then Some SQ
  else if Ascii.eqb e DQ then Some DQ
  else if Ascii.eqb e "n" then Some LF
  else if Ascii.eqb e "r" then Some CR
  else if Ascii.eqb e "t" then Some TAB
  else None.

Definition raw_ok (c : ascii) : bool :=
  let n := nat_of_ascii c in ((32 <=? n) && negb (n =? 127))%nat.

Definition cons_fst (c : ascii) (r : option (string * string)) : option (string * string) :=
  match r with
  | Some (v, rest) => Some (String c v, rest)
  | None => None
  end.

(** The characters of a string literal after its opening quote [q]: the
    text denoted, and what follows the closing quote. *)
Fixpoint str_body (q : ascii) (s : string) : option (string * string) :=
  match s with
  | EmptyString => None
  | String c r =>
      if Ascii.eqb c q then Some (EmptyString, r)
      else if Ascii.eqb c BSL then
        match r with
        | EmptyString => None
        | String e r1 =>
            match simple_escape e with
            | Some d => cons_fst d (str_body q r1)
            | None =>
                if Ascii.eqb e "x" then
                  match r1 with
                  | String h1 (String h2 r3) =>
                      match unhex h1, unhex h2 with
                      | Some a, Some b =>
                          if (16 * a + b <? 128)%nat
                          then cons_fst (ascii_of_nat (16 * a + b)) (str_body q r3)
                          else None
                      | _, _ => None
                      end
                  | _ => None
                  end
                else None
            end
        end
      else if raw_ok c then cons_fst c (str_body q r)
      else None
  end.

Definition str_literal (s : string) : option (string * string) :=
  match s with
  | EmptyString => None
  | String q r => if Ascii.eqb q SQ || Ascii.eqb q DQ then str_body q r else None
  end.

(** The items of a list of string literals, after the opening bracket. *)
Fixpoint list_items (fuel : nat) (s : string) : option (list string) :=
  match fuel with
  | O => None
  | S k =>
      match str_literal s with
      | Some (v, rest) =>
          match rest with
          | String "]" EmptyString => Some [v]
          | String "," (String " " rest') => option_map (cons v) (list_items k rest')
          | _ => None
          end
      | None => None
      end
  end.

Definition list_literal (s : string) : option (list string) :=
  match s with
  | String "[" r =>
      if String.eqb r "]" then Some [] else list_items (String.length r) r
  | _ => None
  end.

Definition is_ident_start (a : ascii) : bool :=
  let n := nat_of_ascii a in
  ((65 <=? n) && (n <=? 90) || (97 <=? n) && (n <=? 122) || (n =? 95))%nat.

Definition is_ident_char (a : ascii) : bool := is_ident_start a || is_digit a.

Definition identifier (s : string) : bool :=
  match s with
  | EmptyString => false
  | String c r => is_ident_start c && all_chars is_ident_char r
  end.

Definition canonical_int (d : Decimal.signed_int) : bool :=
  if Decimal.signed_int_eq_dec (Decimal.norm d) d then true else false.

Definition literal_fragment (s : string) : literal_result :=
  match NilZero.int_of_string s with
  | Some d =>
      if negb (numeral_digits s <=? MAX_STR_DIGITS) then Unmodelled
      else if canonical_int d || (Z.of_int d =? 0) then Literal (VInt (Z.of_int d))
      else Malformed
  | None =>
      if String.eqb s EmptyString then Malformed
      else if String.eqb s "None" then Literal VNone
      else if String.eqb s "True" then Literal (VBool true)
      else if String.eqb s "False" then Literal (VBool false)
      else
        match str_literal s with
        | Some (v, EmptyString) => Literal (VStr v)
        | Some _ => Unmodelled
        | None =>
            match list_literal s with
            | Some l => Literal (VList (map VStr l))
            | None =>
                if identifier s || String.prefix "/" s then Malformed
                else Unmodelled
            end
        end
  end.

(** A value read back from a text: a [pyval], or a value of another type
    (a float, a complex number, bytes, a tuple, a dict, a set, or a list
    that holds one). *)
Inductive decoded : Type :=
| Known (v : pyval)
| Foreign.

(** How a call of [ast.literal_eval] ends: it returns, it raises
    [ValueError] or [SyntaxError] ([Rejects]), or it raises another
    exception ([Fails]: [TypeError] for a set or dict literal with an
    unhashable item, [MemoryError] or [RecursionError] for a deeply nested
    text). *)
Inductive outcome : Type :=
| Returns (d : decoded)
| Rejects
| Fails (e : exn).

(** The interpreter, where the model above does not decide:
    [literal_beyond] is [ast.literal_eval] on the texts outside the
    fragment, [isdigit_beyond] is [str.isdigit] on the texts made of ASCII
    digits and non-ASCII characters only (the answer depends on the Unicode
    category of those characters), [int_beyond] is [int] on the texts that
    are not a run of at most 4300 ASCII digits. *)
Record runtime : Type := {
  literal_beyond : string -> outcome;
  isdigit_beyond : string -> bool;
  int_beyond : string -> result Z
}.

Definition literal_eval (rt : runtime) (s : string) : outcome :=
  match literal_fragment s with
  | Literal v => Returns (Known v)
  | Malformed => Rejects
  | Unmodelled => literal_beyond rt s
  end.

(** [s.isdigit()]: true for a non-empty run of ASCII digits, false for the
    empty text and for a text with an ASCII character that is not a
    digit. *)
Definition isdigit (rt : runtime) (s : string) : bool :=
  match s with
  | EmptyString => false
  | _ =>
      if all_chars is_digit s then true
      else if any_char (fun a => is_ascii a && negb (is_digit a)) s then false
      else isdigit_beyond rt s
  end.

(** The number written by a run of ASCII digits. *)
Definition int_of_digits (s : string) : option Z :=
  if all_chars is_digit s
  then option_map (fun d => Z.of_int (Decimal.Pos d)) (NilZero.uint_of_string s)
  else None.

(** [int(s)]. *)
Definition int_of_text (rt : runtime) (s : string) : result Z :=
  if Z.of_nat (String.length s) <=? MAX_STR_DIGITS then
    match int_of_digits s with
    | Some z => Ok z
    | None => int_beyond rt s
    end
  else int_beyond rt s.

End Py.

Import Py.

(** ** [app/services/state.py] *)

(** An insertion-ordered table, as a Python dict keyed by text: a new key
    goes to the end, an assignment to a present key keeps its place. *)
Module ODict.

Definition t (V : Type) : Type := list (string * V).

Fixpoint get {V : Type} (k : string) (d : t V) : option V :=
  match d with
  | [] => None
  | (k', v) :: r => if String.eqb k k' then Some v else get k r
  end.

Fixpoint set {V : Type} (k : string) (v : V) (d : t V) : t V :=
  match d with
  | [] => [(k, v)]
  | (k', v') :: r =>
      if String.eqb k k' then (k, v) :: r else (k', v') :: set k v r
  end.

Fixpoint del {V : Type} (k : string) (d : t V) : t V :=
  match d with
  | [] => []
  | (k', v') :: r => if String.eqb k k' then r else (k', v') :: del k r
  end.

Definition keys {V : Type} (d : t V) : list string := map fst d.
Definition values {V : Type} (d : t V) : list V := map snd d.

End ODict.

(** A task record: a dict from field names to values. *)
Abbreviation record := (gmap string pyval).

(** [l[start:stop]] with Python's treatment of negative and out-of-range
    bounds. *)
Definition slice_bound (len i : Z) : Z :=
  if i <? 0 then Z.max (i + len) 0 else Z.min i len.

Definition py_slice {A : Type} (start stop : Z) (l : list A) : list A :=
  let len := Z.of_nat (length l) in
  let a := slice_bound len start in
  let b := slice_bound len stop in
  firstn (Z.to_nat (b - a)) (skipn (Z.to_nat a) l).

(** [int(progress)]: the parameter is annotated [int], and [int] of an
    integer is that integer. *)
Definition py_int (progress : Z) : Z := progress.

(** [logger] is used in [state.py] but never imported there or defined:
    evaluating the name raises [NameError].  Inside [update_task] and
    [delete_task] that happens in the [try] block, and again in the handler
    that was to log it, so the [NameError] leaves the method. *)
Definition logger_undefined : exn := NameError "name 'logger' is not defined".

Module MemoryState.

(** The instance ([_tasks]) and the clock it reads: [now_iso n] is the text
    returned by the [n]-th evaluation of [datetime.now().isoformat()], and
    [ticks] counts the evaluations made so far.  The lock is not modelled:
    calls are taken one at a time. *)
Record world : Type := {
  tasks : ODict.t record;
  now_iso : nat -> string;
  ticks : nat
}.

Definition init (clock : nat -> string) : world :=
  {| tasks := []; now_iso := clock; ticks := 0 |}.

Definition datetime_now_isoformat (w : world) : string * world :=
  (now_iso w (ticks w),
   {| tasks := tasks w; now_iso := now_iso w; ticks := S (ticks w) |}).

Definition with_tasks (d : ODict.t record) (w : world) : world :=
  {| tasks := d; now_iso := now_iso w; ticks := ticks w |}.

(** [self._tasks[task_id][key] = value]. *)
Definition set_field (task_id key : string) (value : pyval) (w : world) : world :=
  match ODict.get task_id (tasks w) with
  | Some r => with_tasks (ODict.set task_id (<[key := value]> r) (tasks w)) w
  | None => w
  end.

(** The record made for a task seen for the first time. *)
Definition new_record (task_id : string) (state progress : Z)
    (created_at updated_at : string) : record :=
  <["updated_at" := VStr updated_at]>
    (<["created_at" := VStr created_at]>
       (<["error" := VNone]>
          (<["progress" := VInt progress]>
             (<["state" := VInt state]>
                (<["task_id" := VStr task_id]> ∅))))).

(** The two logging statements that end the [try] block. *)
Definition log_changes (kwargs : record) : result unit :=
  if bool_decide (is_Some (kwargs !! "state")) then Raise logger_undefined
  else
    match kwargs !! "error" with
    | Some e => if truthy e then Raise logger_undefined else Ok tt
    | None => Ok tt
    end.

(** [update_task(task_id, state, progress, **kwargs)]; a caller that leaves
    [state] out passes [const.TASK_STATE_PROCESSING].  The keyword
    arguments that Python binds to [kwargs] are those not named [task_id],
    [state] or [progress]. *)
Definition update_task (task_id : string) (state : Z) (progress : Z)
    (kwargs : record) (w : world) : result unit * world :=
  let progress := py_int progress in
  let progress := if 100 <? progress then 100 else progress in
  let w1 :=
    match ODict.get task_id (tasks w) with
    | Some _ => w
    | None =>
        let '(created_at, wa) := datetime_now_isoformat w in
        let '(updated_at, wb) := datetime_now_isoformat wa in
        with_tasks
          (ODict.set task_id
             (new_record task_id state progress created_at updated_at)
             (tasks wb)) wb
    end in
  (* for key, value in kwargs.items(): self._tasks[task_id][key] = value *)
  let w2 :=
    match ODict.get task_id (tasks w1) with
    | Some r => with_tasks (ODict.set task_id (kwargs ∪ r) (tasks w1)) w1
    | None => w1
    end in
  let '(stamp, w3) := datetime_now_isoformat w2 in
  let w4 := set_field task_id "updated_at" (VStr stamp) w3 in
  (log_changes kwargs, w4).

Definition get_task (task_id : string) (w : world) : option record :=
  ODict.get task_id (tasks w).

Definition delete_task (task_id : string) (w : world) : result unit * world :=
  match ODict.get task_id (tasks w) with
  | Some _ => (Raise logger_undefined, with_tasks (ODict.del task_id (tasks w)) w)
  | None => (Ok tt, w)
  end.

Definition get_all_tasks (page page_size : Z) (w : world) : list record * Z :=
  let start := (page - 1) * page_size in
  let end_ := start + page_size in
  let tasks := ODict.values (tasks w) in
  let total := Z.of_nat (length tasks) in
  (py_slice start end_ tasks, total).

End MemoryState.

Module RedisState.

(** The server, as far as the class uses it: hashes by key, each a table
    from field names to stored bytes.  Failures of the connection are not
    modelled. *)
Abbreviation db := (gmap string (gmap string string)).

Definition hgetall (key : string) (r : db) : gmap string string :=
  default ∅ (r !! key).

Definition hset (key field value : string) (r : db) : db :=
  <[key := <[field := value]> (hgetall key r)]> r.

(** [_convert_to_original_type(value)].  Only [ValueError] and
    [SyntaxError] of [ast.literal_eval] are caught; any other exception,
    and the one [int] may raise, leaves the function. *)
Definition _convert_to_original_type (rt : runtime) (value : string) : result decoded :=
  let value_str := value in
  match literal_eval rt value_str with
  | Returns d => Ok d
  | Fails e => Raise e
  | Rejects =>
      if isdigit rt value_str then
        match int_of_text rt value_str with
        | Ok z => Ok (Known (VInt z))
        | Raise e => Raise e
        end
      else Ok (Known (VStr value_str))
  end.

(** [for field, value in fields.items(): hset(task_id, field, str(value))]:
    the fields are written one at a time, so those before a value whose
    [str] raises stay written. *)
Fixpoint write_fields (task_id : string) (fields : ODict.t pyval) (r : db)
    : result unit * db :=
  match fields with
  | [] => (Ok tt, r)
  | (field, value) :: rest =>
      match py_str value with
      | Ok text => write_fields task_id rest (hset task_id field text r)
      | Raise e => (Raise e, r)
      end
  end.

(** [update_task(task_id, state, progress, **kwargs)].  [kwargs] is in the
    order of the call; Python binds to it the keyword arguments not named
    [task_id], [state] or [progress]. *)
Definition update_task (task_id : string) (state : Z) (progress : Z)
    (kwargs : ODict.t pyval) (r : db) : result unit * db :=
  let progress := py_int progress in
  let progress := if 100 <? progress then 100 else progress in
  let fields : ODict.t pyval :=
    fold_left (fun d kv => ODict.set (fst kv) (snd kv) d) kwargs
      [("task_id", VStr task_id); ("state", VInt state); ("progress", VInt progress)] in
  write_fields task_id fields r.

(** The dict comprehension over the fields of a hash: one field whose
    decoding raises makes the whole comprehension raise.  The order in
    which the server lists the fields is not fixed by the source; the model
    takes the order of the finite map, which only decides which of several
    failing fields is reported. *)
Fixpoint decode_items (rt : runtime) (items : list (string * string))
    : result (list (string * decoded)) :=
  match items with
  | [] => Ok []
  | (k, v) :: rest =>
      match _convert_to_original_type rt v with
      | Ok d =>
          match decode_items rt rest with
          | Ok l => Ok ((k, d) :: l)
          | Raise e => Raise e
          end
      | Raise e => Raise e
      end
  end.

Definition decode_hash (rt : runtime) (task_data : gmap string string)
    : result (gmap string decoded) :=
  match decode_items rt (map_to_list task_data) with
  | Ok l => Ok (list_to_map l)
  | Raise e => Raise e
  end.

Definition get_task (rt : runtime) (task_id : string) (r : db)
    : result (option (gmap string decoded)) :=
  let task_data := hgetall task_id r in
  if bool_decide (task_data = ∅) then Ok None
  else
    match decode_hash rt task_data with
    | Ok task => Ok (Some task)
    | Raise e => Raise e
    end.

Definition delete_task (task_id : string) (r : db) : db := delete task_id r.

(** The inner [for] loop of [get_all_tasks]: each key of the slice adds its
    decoded hash to [tasks], and the loop is left once [tasks] has
    [page_size] entries. *)
Fixpoint collect (rt : runtime) (page_size : Z) (r : db) (keys : list string)
    (tasks : list (gmap string decoded)) : result (list (gmap string decoded)) :=
  match keys with
  | [] => Ok tasks
  | key :: rest =>
      match decode_hash rt (hgetall key r) with
      | Ok task =>
          let tasks := (tasks ++ [task])%list in
          if page_size <=? Z.of_nat (length tasks) then Ok tasks
          else collect rt page_size r rest tasks
      | Raise e => Raise e
      end
  end.

(** The [while True] loop of [get_all_tasks].  [batches] are the key lists
    the successive [SCAN] calls return, in order; the reply that carries
    the last one has cursor 0. *)
Fixpoint scan_loop (rt : runtime) (batches : list (list string))
    (page_size start end_ : Z) (r : db) (tasks : list (gmap string decoded))
    (total : Z) : result (list (gmap string decoded) * Z) :=
  match batches with
  | [] => Ok (tasks, total)
  | keys :: more =>
      let total := total + Z.of_nat (length keys) in
      match
        (if start <? total
         then collect rt page_size r
                (py_slice (Z.max 0 (start - total)) (end_ - total) keys) tasks
         else Ok tasks)
      with
      | Ok tasks =>
          match more with
          | [] => Ok (tasks, total)
          | _ :: _ =>
              if page_size <=? Z.of_nat (length tasks) then Ok (tasks, total)
              else scan_loop rt more page_size start end_ r tasks total
          end
      | Raise e => Raise e
      end
  end.

Definition get_all_tasks (rt : runtime) (batches : list (list string))
    (page page_size : Z) (r : db) : result (list (gmap string decoded) * Z) :=
  let start := (page - 1) * page_size in
  let end_ := start + page_size in
  scan_loop rt batches page_size start end_ r [] 0.

End RedisState.

(** [StateManager] keeps its table in [tasks] and reads the same clock; its
    state is a [MemoryState.world]. *)
Module StateManager.

(** [update_task(task_id, **kwargs)]; [TASK_STATE_PENDING] is the constant
    of [app.models.const], which is not part of the sources at hand. *)
Definition update_task (TASK_STATE_PENDING : Z) (task_id : string)
    (kwargs : record) (w : MemoryState.world) : result unit * MemoryState.world :=
  let w1 :=
    match ODict.get task_id (MemoryState.tasks w) with
    | Some _ => w
    | None =>
        let '(created_at, wa) := MemoryState.datetime_now_isoformat w in
        let '(updated_at, wb) := MemoryState.datetime_now_isoformat wa in
        MemoryState.with_tasks
          (ODict.set task_id
             (<["updated_at" := VStr updated_at]>
                (<["created_at" := VStr created_at]>
                   (<["error" := VNone]>
                      (<["progress" := VInt 0]>
                         (<["state" := VInt TASK_STATE_PENDING]>
                            (<["id" := VStr task_id]> ∅))))))
             (MemoryState.tasks wb)) wb
    end in
  let w2 :=
    match ODict.get task_id (MemoryState.tasks w1) with
    | Some r =>
        MemoryState.with_tasks (ODict.set task_id (kwargs ∪ r) (MemoryState.tasks w1)) w1
    | None => w1
    end in
  let '(stamp, w3) := MemoryState.datetime_now_isoformat w2 in
  let w4 := MemoryState.set_field task_id "updated_at" (VStr stamp) w3 in
  (MemoryState.log_changes kwargs, w4).

Definition get_task (task_id : string) (w : MemoryState.world) : option record :=
  ODict.get task_id (MemoryState.tasks w).

Definition delete_task (task_id : string) (w : MemoryState.world)
    : result unit * MemoryState.world :=
  match ODict.get task_id (MemoryState.tasks w) with
  | Some _ =>
      (Raise logger_undefined,
       MemoryState.with_tasks (ODict.del task_id (MemoryState.tasks w)) w)
  | None => (Ok tt, w)
  end.

Definition get_all_tasks (w : MemoryState.world) : list record :=
  ODict.values (MemoryState.tasks w).

End StateManager.

(** ** [app/config.py] *)

Module Config.

(** The instance: [self.app] and [self.LLM_PROVIDERS]. *)
Record t : Type := {
  app : record;
  LLM_PROVIDERS : gmap string record
}.

(** What [tomli.load] returns, as far as [_load_config] looks at it: the
    [app] table and the [llm_providers] table, each possibly absent; the
    providers come in the order of the file. *)
Record config_data : Type := {
  app_table : option record;
  llm_providers_table : option (ODict.t record)
}.

(** The providers [__init__] starts with. *)
Definition DEFAULT_PROVIDERS : gmap string record :=
  <["openai" := <["api_key" := VStr EmptyString]>
                  (<["base_url" := VStr "https://api.openai.com/v1"]>
                     (<["models" := VList [VStr "gpt-3.5-turbo"; VStr "gpt-4"]]> ∅))]>
  (<["g4f" := <["models" := VList [VStr "gpt-3.5-turbo"; VStr "gpt-4"]]> ∅]>
  (<["pollinations" := <["base_url" := VStr "https://text.pollinations.ai/openai"]>
                         (<["models" := VList [VStr "openai-fast"]]> ∅)]> ∅)).

(** [not isinstance(v, str) or not v.strip()], for [v = config.get(key, default)] with an empty default. *)
Definition blank_or_not_text (v : option pyval) : bool :=
  match v with
  | None => true
  | Some (VStr s) => String.eqb (strip s) EmptyString
  | Some _ => true
  end.

Definition _validate_app_config (config : record) : result unit :=
  match config !! "version", config !! "language" with
  | None, _ => Raise (ValueError "Missing required field in app config: version")
  | Some _, None => Raise (ValueError "Missing required field in app config: language")
  | Some _, Some _ =>
      if blank_or_not_text (config !! "version")
      then Raise (ValueError "Invalid version format in app config")
      else if blank_or_not_text (config !! "language")
      then Raise (ValueError "Invalid language format in app config")
      else Ok tt
  end.

(** The checks made on one entry of the providers table. *)
Definition validate_provider (known : gmap string record) (provider : string)
    (config : record) : result unit :=
  match known !! provider with
  | None => Raise (ValueError ("Unsupported LLM provider: " ++ provider))
  | Some _ =>
      if String.eqb provider "openai" then
        match config !! "api_key", config !! "base_url", config !! "models" with
        | None, _, _ => Raise (ValueError "OpenAI configuration missing api_key")
        | Some _, None, _ => Raise (ValueError "OpenAI configuration missing base_url")
        | Some _, Some _, None => Raise (ValueError "OpenAI configuration missing models")
        | Some _, Some _, Some _ => Ok tt
        end
      else if String.eqb provider "pollinations" then
        match config !! "base_url", config !! "models" with
        | None, _ => Raise (ValueError "Pollinations configuration missing base_url")
        | Some _, None => Raise (ValueError "Pollinations configuration missing models")
        | Some _, Some _ => Ok tt
        end
      else Ok tt
  end.

Fixpoint _validate_llm_providers (known : gmap string record)
    (providers : ODict.t record) : result unit :=
  match providers with
  | [] => Ok tt
  | (provider, config) :: rest =>
      match validate_provider known provider config with
      | Ok _ => _validate_llm_providers known rest
      | Raise e => Raise e
      end
  end.

(** [d.update(table)] for a table given in file order. *)
Definition update_providers (table : ODict.t record) (d : gmap string record)
    : gmap string record :=
  fold_left (fun acc entry => <[fst entry := snd entry]> acc) table d.

(** [_load_config].  [file] is [None] when [config.toml] does not exist,
    and otherwise what opening and parsing it gives.  [logger] is not
    defined in [config.py] either, so the warning for a missing file and
    the [except] clause that was to log an error both raise [NameError]. *)
Definition _load_config (file : option (result config_data)) (c : t) : result unit * t :=
  match file with
  | None => (Raise logger_undefined, c)
  | Some (Raise _) => (Raise logger_undefined, c)
  | Some (Ok data) =>
      let step_app :=
        match app_table data with
        | None => (Ok tt, c)
        | Some table =>
            match _validate_app_config table with
            | Raise e => (Raise e, c)
            | Ok _ => (Ok tt, {| app := table ∪ app c; LLM_PROVIDERS := LLM_PROVIDERS c |})
            end
        end in
      match step_app with
      | (Raise _, c1) => (Raise logger_undefined, c1)
      | (Ok _, c1) =>
          match llm_providers_table data with
          | None => (Ok tt, c1)
          | Some table =>
              match _validate_llm_providers (LLM_PROVIDERS c1) table with
              | Raise _ => (Raise logger_undefined, c1)
              | Ok _ =>
                  (Ok tt, {| app := app c1;
                             LLM_PROVIDERS := update_providers table (LLM_PROVIDERS c1) |})
              end
          end
      end
  end.

(** [Config()]. *)
Definition init (file : option (result config_data)) : result t :=
  match _load_config file {| app := ∅; LLM_PROVIDERS := DEFAULT_PROVIDERS |} with
  | (Ok _, c) => Ok c
  | (Raise e, _) => Raise e
  end.

Definition is_text (v : pyval) : bool :=
  match v with VStr _ => true | _ => false end.

(** [get(key, default)]. *)
Definition get (key : string) (default_value : pyval) (c : t) : result pyval :=
  let value := default default_value (app c !! key) in
  if String.eqb key "version" && negb (is_text value)
  then Raise (TypeError "Version must be a string")
  else if String.eqb key "language" && negb (is_text value)
  then Raise (TypeError "Language must be a string")
  else if String.eqb key "api_key" && negb (is_text value)
  then Raise (TypeError "API key must be a string")
  else if String.eqb key "base_url" && negb (is_text value)
  then Raise (TypeError "Base URL must be a string")
  else Ok value.

Definition get_provider_config (provider : string) (c : t) : result record :=
  match LLM_PROVIDERS c !! provider with
  | None => Raise (ValueError ("Unsupported LLM provider: " ++ provider))
  | Some provider_config => Ok provider_config
  end.

Definition get_provider_models (provider : string) (c : t) : result pyval :=
  match get_provider_config provider c with
  | Raise e => Raise e
  | Ok provider_config => Ok (default (VList []) (provider_config !! "models"))
  end.



End Config.

(** ** [app/services/llm.py] *)

Module Llm.

(** What is sent to an external service by one of the three adapters. *)
Inductive request : Type :=
| OpenAIChat (api_key : pyval) (model prompt : string)
| G4FChat (model prompt : string)
| PollinationsPost (base_url : pyval) (prompt : string).

(** What the service does with it: it returns the content of the reply
    ([None] when the reply has no content), or the client raises. *)
Inductive reply : Type :=
| Returned (content : option string)
| Failed (e : exn).

(** A JSON document as [json.loads] returns it.  A float is kept only as
    whether it is zero, which is all the code can observe of it. *)
Inductive json : Type :=
| JNull
| JBool (b : bool)
| JInt (z : Z)
| JFloat (nonzero : bool)
| JStr (s : string)
| JArr (l : list json)
| JObj (members : list (string * json)).

Inductive level : Type := Info | Success | Warning | Error.

(** Observable events, oldest first in a trace: records passed to the
    loggers, requests to a service, and sleeps. *)
Inductive event : Type :=
| Log (lvl : level) (msg : string)
| LogCompleted (search_terms : json)
| Request (r : request)
| Sleep (secs : Z).

(** [service n r] is the outcome of the [n]-th request made, when it is
    [r]; [requests] counts the requests made so far. *)
Record world : Type := {
  LLM_PROVIDERS : gmap string record;
  service : nat -> request -> reply;
  requests : nat;
  trace : list event
}.

Definition M (A : Type) : Type := world -> result A * world.

#[global] Instance M_ret : MRet M := fun A a w => (Ok a, w).
#[global] Instance M_bind : MBind M := fun A B f m w =>
  match m w with
  | (Ok a, w') => f a w'
  | (Raise e, w') => (Raise e, w')
  end.

Definition raise {A : Type} (e : exn) : M A := fun w => (Raise e, w).

(** [try: body except Exception as e: handler]. *)
Definition try_except {A : Type} (body : M A) (handler : exn -> M A) : M A :=
  fun w =>
    match body w with
    | (Ok a, w') => (Ok a, w')
    | (Raise e, w') => handler e w'
    end.

Definition emit (ev : event) : M unit :=
  fun w =>
    (Ok tt, {| LLM_PROVIDERS := LLM_PROVIDERS w; service := service w;
               requests := requests w; trace := trace w ++ [ev] |}).

Definition log (lvl : level) (msg : string) : M unit := emit (Log lvl msg).

Definition time_sleep (secs : Z) : M unit := emit (Sleep secs).

Definition send (r : request) : M (option string) :=
  fun w =>
    let w' := {| LLM_PROVIDERS := LLM_PROVIDERS w; service := service w;
                 requests := S (requests w); trace := trace w ++ [Request r] |} in
    match service w (requests w) r with
    | Returned c => (Ok c, w')
    | Failed e => (Raise e, w')
    end.

Definition get_providers : M (gmap string record) :=
  fun w => (Ok (LLM_PROVIDERS w), w).

(** [not d.get(key)]. *)
Definition not_get (d : record) (key : string) : bool :=
  match d !! key with
  | Some v => negb (truthy v)
  | None => true
  end.

Definition empty (s : string) : bool := String.eqb s EmptyString.

(** [not response] for a reply content. *)
Definition not_content (c : option string) : bool :=
  match c with
  | Some s => empty s
  | None => true
  end.

Definition _max_retries : Z := 5.

Definition _generate_openai_response (provider_config : record) (model prompt : string)
    : M (option string) :=
  try_except
    (match provider_config !! "api_key" with
     | Some key => send (OpenAIChat key model prompt)
     | None => raise (KeyError "'api_key'")
     end)
    (fun e => log Error ("OpenAI API error: " ++ exn_str e) ;; raise e).

Definition _generate_g4f_response (model prompt : string) : M (option string) :=
  try_except
    (send (G4FChat model prompt))
    (fun e => log Error ("G4F error: " ++ exn_str e) ;; raise e).

(** Only a [RequestException] is caught (logged and raised again). *)
Definition _generate_pollinations_response (provider_config : record) (prompt : string)
    : M (option string) :=
  try_except
    (match provider_config !! "base_url" with
     | Some url => send (PollinationsPost url prompt)
     | None => raise (KeyError "'base_url'")
     end)
    (fun e =>
       match e with
       | RequestException m => log Error ("Pollinations API error: " ++ m) ;; raise e
       | _ => raise e
       end).

(** The configuration checks made before the retry loop. *)
Definition validate_required (provider : string) (provider_config : record)
    (model : string) : M unit :=
  let fail (error_msg : string) : M unit :=
    log Error error_msg ;; raise (ValueError error_msg) in
  if String.eqb provider "openai" then
    if not_get provider_config "api_key" then fail "OpenAI API key not configured"
    else if empty model then fail "OpenAI model not specified"
    else mret tt
  else if String.eqb provider "g4f" then
    if empty model then fail "G4F model not specified" else mret tt
  else if String.eqb provider "pollinations" then
    if not_get provider_config "base_url" then fail "Pollinations base URL not configured"
    else mret tt
  else mret tt.

(** The body of the [try] block of one attempt. *)
Definition attempt_once (provider : string) (provider_config : record)
    (model prompt : string) : M (option string) :=
  response ←
    (if String.eqb provider "openai" then
       _generate_openai_response provider_config model prompt
     else if String.eqb provider "g4f" then
       _generate_g4f_response model prompt
     else if String.eqb provider "pollinations" then
       _generate_pollinations_response provider_config prompt
     else
       let error_msg := "Unsupported LLM provider: " ++ provider in
       log Error error_msg ;; raise (ValueError error_msg)) ;
  if not_content response then
    let error_msg := "Empty response from LLM" in
    log Error error_msg ;; raise (ValueError error_msg)
  else mret response.

(** [for attempt in range(max_retries)], with [n] iterations left. *)
Fixpoint retry_loop (n : nat) (attempt : Z) (provider : string)
    (provider_config : record) (model prompt : string)
    (max_retries retry_delay : Z) : M (option string) :=
  match n with
  | O => mret None
  | S k =>
      try_except
        (attempt_once provider provider_config model prompt)
        (fun e =>
           log Error ("Attempt " ++ str_of_Z (attempt + 1) ++ "/"
                      ++ str_of_Z max_retries ++ " failed: " ++ exn_str e) ;;
           if attempt <? max_retries - 1 then
             time_sleep retry_delay ;;
             retry_loop k (attempt + 1) provider provider_config model prompt
               max_retries retry_delay
           else
             let error_msg :=
               "Failed to generate response after " ++ str_of_Z max_retries
               ++ " attempts: " ++ exn_str e in
             log Error error_msg ;; raise (RuntimeError error_msg))
  end.

Definition _generate_response (provider model prompt : string)
    (max_retries retry_delay : Z) : M (option string) :=
  log Info ("Generating response using " ++ provider ++ " with model " ++ model) ;;
  providers ← get_providers ;
  match providers !! provider with
  | None =>
      let error_msg := "Invalid LLM provider: " ++ provider in
      log Error error_msg ;; raise (ValueError error_msg)
  | Some provider_config =>
      validate_required provider provider_config model ;;
      retry_loop (Z.to_nat max_retries) 0 provider provider_config model prompt
        max_retries retry_delay
  end.

(** *** Calling [_generate_response]

    [provider], [model] and [prompt] have no default value.  A call that
    leaves one of them out raises [TypeError] before the body runs; the
    message lists the parameters left out. *)
Definition quoted (name : string) : string := "'" ++ name ++ "'".

Definition missing_arguments (names : list string) : string :=
  let n := length names in
  "_generate_response() missing " ++ str_of_Z (Z.of_nat n)
  ++ " required positional argument" ++ (if (n =? 1)%nat then EmptyString else "s") ++ ": "
  ++ match names with
     | [a] => quoted a
     | [a; b] => quoted a ++ " and " ++ quoted b
     | _ => join ", " (map quoted (removelast names))
            ++ ", and " ++ quoted (List.last names EmptyString)
     end.

Definition call_generate_response (provider model prompt : option string)
    (max_retries retry_delay : option Z) : M (option string) :=
  match provider, model, prompt with
  | Some p, Some m, Some q =>
      _generate_response p m q (default 3 max_retries) (default 2 retry_delay)
  | _, _, _ =>
      raise (TypeError (missing_arguments
        ((if provider is None then ["provider"] else [])
         ++ (if model is None then ["model"] else [])
         ++ (if prompt is None then ["prompt"] else []))))
  end.

(** *** [generate_script] *)

Definition script_prompt (video_subject language : string) (paragraph_number : Z)
    : string :=
  let prompt :=
    strip (join nl [
      EmptyString;
      "# Role: Video Script Generator";
      EmptyString;
      "## Goals:";
      "Generate a script for a video, depending on the subject of the video.";
      EmptyString;
      "## Constrains:";
      "1. the script is to be returned as a string with the specified number of paragraphs.";
      "2. do not under any circumstance reference this prompt in your response.";
      "3. get straight to the point, don't start with unnecessary things like, "
        ++ dq ++ "welcome to this video" ++ dq ++ ".";
      "4. you must not include any type of markdown or formatting in the script, never use a title.";
      "5. only return the raw content of the script.";
      "6. do not include " ++ dq ++ "voiceover" ++ dq ++ ", " ++ dq ++ "narrator" ++ dq
        ++ " or similar indicators of what should be spoken at the beginning of each paragraph or line.";
      "7. you must not mention the prompt, or anything about the script itself. also, never talk about the amount of paragraphs or lines. just write the script.";
      "8. respond in the same language as the video subject.";
      "9. use informal, conversational language that people use in their daily lives - avoid formal or academic tone.";
      "10. make the content engaging and interesting by:";
      "    - using natural expressions and idioms common in everyday speech";
      "    - incorporating rhetorical questions to maintain viewer interest";
      "    - using relatable examples and scenarios";
      "    - keeping sentences concise and dynamic";
      "    - adding personality and warmth to the tone";
      "11. ensure the language feels authentic to native speakers of the target language";
      "12. maintain a friendly and approachable tone throughout the script";
      EmptyString;
      "# Initialization:";
      "- video subject: " ++ video_subject;
      "- number of paragraphs: " ++ str_of_Z paragraph_number;
      EmptyString ]) in
  if empty language then prompt
  else prompt ++ nl ++ "- language: " ++ language.

(** The nested [format_response]. *)
Definition format_response (response : string) : string :=
  let response := replace "*" EmptyString response in
  let response := replace "#" EmptyString response in
  let response := re_sub_span "[" "]" response in
  let response := re_sub_span "(" ")" response in
  let paragraphs := split (nl ++ nl) response in
  join (nl ++ nl) paragraphs.

(** The message g4f returns in place of a reply when the daily quota is
    used up. *)
Definition QUOTA_MARKER : string := "当日额度已消耗完".

(** One iteration of the loop of [generate_script], from the [try] to the
    end of its handler: the new value of [final_script], and whether the
    [break] was reached.  [call] is the call of line 188. *)
Definition script_attempt (call : M (option string)) (final_script : string)
    : M (string * bool) :=
  let handler (e : exn) (final_script : string) : M (string * bool) :=
    log Error ("failed to generate script: " ++ exn_str e) ;;
    mret (final_script, false) in
  let received (response : option string) : M (string * bool) :=
    final_script ←
      (if not_content response then
         log Error "gpt returned an empty response" ;; mret final_script
       else mret (format_response (default EmptyString response))) ;
    if negb (empty final_script) && contains QUOTA_MARKER final_script then
      handler (ValueError final_script) final_script
    else mret (final_script, negb (empty final_script)) in
  fun w =>
    match call w with
    | (Raise e, w1) => handler e final_script w1
    | (Ok response, w1) => received response w1
    end.

(** [for i in range(_max_retries)], with [n] iterations left. *)
Fixpoint script_loop (call : M (option string)) (n : nat) (i : Z)
    (final_script : string) : M string :=
  match n with
  | O => mret final_script
  | S k =>
      '(final_script, stop) ← script_attempt call final_script ;
      if stop : bool then mret final_script
      else
        (if i <? _max_retries then
           log Warning ("failed to generate video script, trying again... "
                        ++ str_of_Z (i + 1))
         else mret tt) ;;
        script_loop call k (i + 1) final_script
  end.

(** The body of [generate_script], given what the call of line 188 does
    with the prompt. *)
Definition generate_script_with (call : string -> M (option string))
    (video_subject language : string) (paragraph_number : Z) : M string :=
  let prompt := script_prompt video_subject language paragraph_number in
  let final_script := EmptyString in
  log Info ("subject: " ++ video_subject) ;;
  final_script ← script_loop (call prompt) (Z.to_nat _max_retries) 0 final_script ;
  (if contains "Error: " final_script then
     log Error ("failed to generate video script: " ++ final_script)
   else log Success ("completed: " ++ nl ++ final_script)) ;;
  mret (strip final_script).

(** Line 188 as written: [_generate_response(prompt=prompt)]. *)
Definition script_call (prompt : string) : M (option string) :=
  call_generate_response None None (Some prompt) None None.

Definition generate_script : string -> string -> Z -> M string :=
  generate_script_with script_call.

(** *** [generate_terms] *)

Definition terms_prompt (video_subject video_script : string) (amount : Z) : string :=
  strip (join nl [
    EmptyString;
    "# Role: Video Search Terms Generator";
    EmptyString;
    "## Goals:";
    "Generate " ++ str_of_Z amount
      ++ " search terms for stock videos, depending on the subject of a video.";
    EmptyString;
    "## Constrains:";
    "1. the search terms are to be returned as a json-array of strings.";
    "2. each search term should consist of 1-3 words, always add the main subject of the video.";
    "3. you must only return the json-array of strings. you must not return anything else. you must not return the script.";
    "4. the search terms must be related to the subject of the video.";
    "5. reply with english search terms only.";
    EmptyString;
    "## Output Example:";
    "[" ++ dq ++ "search term 1" ++ dq ++ ", " ++ dq ++ "search term 2" ++ dq ++ ", "
      ++ dq ++ "search term 3" ++ dq ++ "," ++ dq ++ "search term 4" ++ dq ++ ","
      ++ dq ++ "search term 5" ++ dq ++ "]";
    EmptyString;
    "## Context:";
    "### Video Subject";
    video_subject;
    EmptyString;
    "### Video Script";
    video_script;
    EmptyString;
    "Please note that you must use English for generating video search terms; Chinese is not accepted.";
    EmptyString ]).

Definition json_truthy (v : json) : bool :=
  match v with
  | JNull => false
  | JBool b => b
  | JInt z => negb (z =? 0)
  | JFloat nonzero => nonzero
  | JStr s => negb (empty s)
  | JArr l => match l with [] => false | _ => true end
  | JObj m => match m with [] => false | _ => true end
  end.

(** [len(v)], which raises [TypeError] on a value that has no length. *)
Definition json_len (v : json) : result Z :=
  match v with
  | JStr s => Ok (Z.of_nat (String.length s))
  | JArr l => Ok (Z.of_nat (length l))
  | JObj m => Ok (Z.of_nat (length m))
  | JNull => Raise (TypeError "object of type 'NoneType' has no len()")
  | JBool _ => Raise (TypeError "object of type 'bool' has no len()")
  | JInt _ => Raise (TypeError "object of type 'int' has no len()")
  | JFloat _ => Raise (TypeError "object of type 'float' has no len()")
  end.

Definition is_str (v : json) : bool :=
  match v with JStr _ => true | _ => false end.

(** [isinstance(v, list) and all(isinstance(term, str) for term in v)]. *)
Definition list_of_str (v : json) : bool :=
  match v with
  | JArr l => forallb is_str l
  | _ => false
  end.

(** How one iteration of the loop of [generate_terms] ends. *)
Inductive terms_step : Type :=
| Return (v : json)
| Continue (search_terms : json) (response : option string)
| Tail (search_terms : json) (response : option string).

Section Terms.

(** [json.loads], which raises [JSONDecodeError] (a [ValueError]) on a text
    that is not a JSON document. *)
Variable json_loads : string -> result json.

(** One iteration, from the [try] to the end of its handler. *)
Definition terms_attempt (call : M (option string)) (search_terms : json)
    (response : option string) : M terms_step :=
  let handler (e : exn) (search_terms : json) (response : option string)
      : M terms_step :=
    log Warning ("failed to generate video terms: " ++ exn_str e) ;;
    match response with
    | Some text =>
        if empty text then mret (Tail search_terms response)
        else
          match re_search_span "[" "]" text with
          | Some group =>
              match json_loads group with
              | Ok v => mret (Tail v response)
              | Raise e' =>
                  log Warning ("failed to generate video terms: " ++ exn_str e') ;;
                  mret (Tail search_terms response)
              end
          | None => mret (Tail search_terms response)
          end
    | None => mret (Tail search_terms response)
    end in
  let received (response : option string) : M terms_step :=
    match response with
    | None =>
        handler (TypeError "argument of type 'NoneType' is not iterable")
          search_terms response
    | Some text =>
        if contains "Error: " text then
          log Error ("failed to generate video script: " ++ text) ;;
          mret (Return (JStr text))
        else
          match json_loads text with
          | Raise e => handler e search_terms response
          | Ok search_terms =>
              if negb (list_of_str search_terms) then
                log Error "response is not a list of strings." ;;
                mret (Continue search_terms response)
              else mret (Tail search_terms response)
          end
    end in
  fun w =>
    match call w with
    | (Raise e, w1) => handler e search_terms response w1
    | (Ok response, w1) => received response w1
    end.

(** [for i in range(_max_retries)], with [n] iterations left; the result
    is what [generate_terms] returns. *)
Fixpoint terms_loop (call : M (option string)) (n : nat) (i : Z)
    (search_terms : json) (response : option string) : M json :=
  let finish (search_terms : json) : M json :=
    emit (LogCompleted search_terms) ;; mret search_terms in
  match n with
  | O => finish search_terms
  | S k =>
      step ← terms_attempt call search_terms response ;
      match step with
      | Return v => mret v
      | Continue search_terms response =>
          terms_loop call k (i + 1) search_terms response
      | Tail search_terms response =>
          stop ←
            (if json_truthy search_terms then
               match json_len search_terms with
               | Ok len => mret (0 <? len)
               | Raise e => raise e
               end
             else mret false) ;
          if stop : bool then finish search_terms
          else
            (if i <? _max_retries then
               log Warning ("failed to generate video terms, trying again... "
                            ++ str_of_Z (i + 1))
             else mret tt) ;;
            terms_loop call k (i + 1) search_terms response
      end
  end.

Definition generate_terms_with (call : string -> M (option string))
    (video_subject video_script : string) (amount : Z) : M json :=
  let prompt := terms_prompt video_subject video_script amount in
  log Info ("subject: " ++ video_subject) ;;
  terms_loop (call prompt) (Z.to_nat _max_retries) 0 (JArr []) (Some EmptyString).

(** Line 245 as written: [_generate_response(prompt)], which binds the
    prompt to the first parameter, [provider]. *)
Definition terms_call (prompt : string) : M (option string) :=
  call_generate_response (Some prompt) None None None None.

Definition generate_terms : string -> string -> Z -> M json :=
  generate_terms_with terms_call.

End Terms.

End Llm.


(** ** Derived notions used in the statements *)

(** A field of the record [get_task] returns. *)
Definition memory_field (task_id key : string) (w : MemoryState.world) : option pyval :=
  MemoryState.get_task task_id w ≫= (fun r : record => r !! key).

(** The same for the persisted backend; [get_task] may raise there. *)
Definition redis_field (rt : runtime) (task_id key : string) (r : RedisState.db)
    : result (option decoded) :=
  match RedisState.get_task rt task_id r with
  | Ok task => Ok (task ≫= (fun t : gmap string decoded => t !! key))
  | Raise e => Raise e
  end.

(** A runtime that rejects every text the model does not decide. *)
Definition strict_runtime : runtime :=
  {| literal_beyond := fun _ => Rejects;
     isdigit_beyond := fun _ => false;
     int_beyond := fun s => Raise (ValueError ("invalid literal for int() with base 10: "
                                                ++ repr_str s)) |}.

(** [progress] after the cap of [update_task]. *)
Definition capped (progress : Z) : Z := Z.min (py_int progress) 100.

(** A clock with a resolution of one microsecond that advances between any
    two readings. *)
Definition sample_clock (n : nat) : string :=
  "2024-05-01T10:00:00.00000" ++ String (ascii_of_nat (48 + Nat.min n 9)) EmptyString.

(** Every [updated_at] in the store is a reading of the clock already
    taken. *)
Definition stamped (w : MemoryState.world) : bool :=
  forallb
    (fun entry : string * record =>
       match snd entry !! "updated_at" with
       | Some (VStr s) =>
           existsb (fun i => String.eqb s (MemoryState.now_iso w i))
             (seq 0 (MemoryState.ticks w))
       | _ => false
       end)
    (MemoryState.tasks w).

(** The bytes that occur in the encoding of some space character. *)
Definition ws_byte (a : ascii) : bool :=
  let n := nat_of_ascii a in
  ((9 <=? n) && (n <=? 13) || (28 <=? n) && (n <=? 32)
   || (128 <=? n) && (n <=? 138) || (n =? 154) || (n =? 159) || (n =? 160)
   || (n =? 168) || (n =? 169) || (n =? 175) || (n =? 194)
   || (225 <=? n) && (n <=? 227))%nat.

Ltac bool_arith :=
  unfold ws_byte, is_ws1, is_ws2, is_ws3 in *; cbv zeta in *;
  repeat rewrite ?andb_true_iff, ?orb_true_iff, ?andb_false_iff, ?orb_false_iff,
    ?Nat.eqb_eq, ?Nat.eqb_neq, ?Nat.leb_le, ?Nat.leb_gt in *.

Ltac solve_false := apply not_true_iff_false; intro; bool_arith; lia.

Section StoreNotions.

(** What [_convert_to_original_type] gives on a text it decodes. *)
Definition decode_or (rt : runtime) (s : string) : decoded :=
  match RedisState._convert_to_original_type rt s with
  | Ok d => d
  | Raise _ => Foreign
  end.

(** Every field of a stored hash decodes without an exception. *)
Definition decodes (rt : runtime) (h : gmap string string) : bool :=
  forallb
    (fun kv : string * string =>
       match RedisState._convert_to_original_type rt (snd kv) with
       | Ok _ => true
       | Raise _ => false
       end)
    (map_to_list h).

(** The dict [fields] that [RedisState.update_task] builds. *)
Definition redis_fields (task_id : string) (state progress : Z)
    (kwargs : ODict.t pyval) : ODict.t pyval :=
  fold_left (fun d kv => ODict.set (fst kv) (snd kv) d) kwargs
    [("task_id", VStr task_id); ("state", VInt state); ("progress", VInt progress)].

End StoreNotions.

Section ClockNotions.
Import MemoryState.

Definition clock_not_behind (w : world) : bool :=
  forallb (fun i => String.leb (now_iso w i) (now_iso w (ticks w))) (seq 0 (ticks w)).

Definition stamp_ok (nw : nat -> string) (tk : nat) (entry : string * record) : bool :=
  match snd entry !! "updated_at" with
  | Some (VStr s) => existsb (fun i => String.eqb s (nw i)) (seq 0 tk)
  | _ => false
  end.

Definition one_task : world := snd (update_task "job" 4 10 ∅ (init sample_clock)).

End ClockNotions.

Section TraceNotions.
Import Llm.

Definition logged (evs : list event) (w : world) : world :=
  {| LLM_PROVIDERS := LLM_PROVIDERS w; service := service w;
     requests := requests w; trace := trace w ++ evs |}.

Definition MISSING_SCRIPT_ARGS : string :=
  "_generate_response() missing 2 required positional arguments: 'provider' and 'model'".
Definition MISSING_TERMS_ARGS : string :=
  "_generate_response() missing 2 required positional arguments: 'model' and 'prompt'".

Fixpoint script_failures (msg : string) (i : Z) (n : nat) : list event :=
  match n with
  | O => []
  | S k =>
      Log Error ("failed to generate script: " ++ msg)
      :: Log Warning ("failed to generate video script, trying again... " ++ str_of_Z (i + 1))
      :: script_failures msg (i + 1) k
  end.

Fixpoint terms_failures (msg : string) (i : Z) (n : nat) : list event :=
  match n with
  | O => []
  | S k =>
      Log Warning ("failed to generate video terms: " ++ msg)
      :: Log Warning ("failed to generate video terms, trying again... " ++ str_of_Z (i + 1))
      :: terms_failures msg (i + 1) k
  end.

End TraceNotions.

Section TransportNotions.
Import Llm.

(** The message of the first configuration check that fails. *)
Definition validation_error (provider : string) (provider_config : record)
    (model : string) : option string :=
  if String.eqb provider "openai" then
    if not_get provider_config "api_key" then Some "OpenAI API key not configured"
    else if empty model then Some "OpenAI model not specified"
    else None
  else if String.eqb provider "g4f" then
    if empty model then Some "G4F model not specified" else None
  else if String.eqb provider "pollinations" then
    if not_get provider_config "base_url" then Some "Pollinations base URL not configured"
    else None
  else None.

(** The request an attempt sends for a supported provider. *)
Definition request_for (provider : string) (provider_config : record)
    (model prompt : string) : option request :=
  if String.eqb provider "openai" then
    option_map (fun key => OpenAIChat key model prompt) (provider_config !! "api_key")
  else if String.eqb provider "g4f" then Some (G4FChat model prompt)
  else if String.eqb provider "pollinations" then
    option_map (fun url => PollinationsPost url prompt) (provider_config !! "base_url")
  else None.

(** What the adapter of a provider logs when its client raises [e]. *)
Definition adapter_log (provider : string) (e : exn) : list event :=
  if String.eqb provider "openai" then [Log Error ("OpenAI API error: " ++ exn_str e)]
  else if String.eqb provider "g4f" then [Log Error ("G4F error: " ++ exn_str e)]
  else match e with
       | RequestException m => [Log Error ("Pollinations API error: " ++ m)]
       | _ => []
       end.

Definition is_effect (ev : event) : bool :=
  match ev with
  | Request _ | Sleep _ => true
  | _ => false
  end.

Definition effects (evs : list event) : list event := filter is_effect evs.

Definition sent (r : request) (w : world) : world :=
  {| LLM_PROVIDERS := LLM_PROVIDERS w; service := service w;
     requests := S (requests w); trace := trace w ++ [Request r] |}.

Definition failing_world (e : exn) : world :=
  {| LLM_PROVIDERS := Config.DEFAULT_PROVIDERS; service := fun _ _ => Failed e;
     requests := 0; trace := [] |}.

Definition error_logged (msg : string) (ev : event) : bool :=
  match ev with
  | Log Error m => String.eqb m msg
  | _ => false
  end.

Definition count_errors (msg : string) (evs : list event) : nat :=
  length (filter (error_logged msg) evs).

Definition attempt_failed_log (attempt max_retries : Z) (e : exn) : event :=
  Log Error ("Attempt " ++ str_of_Z (attempt + 1) ++ "/" ++ str_of_Z max_retries
             ++ " failed: " ++ exn_str e).

End TransportNotions.

Section ReplyNotions.
Import Llm.

Definition is_vstr (v : pyval) : bool :=
  match v with VStr _ => true | _ => false end.

(** The values the persisted backend gives back unchanged: an integer
    within the digit limit of [str], a list of texts, [None], a Boolean,
    and a text that [ast.literal_eval] rejects (with [ValueError] or
    [SyntaxError]) and that is not made of digits. *)
Definition faithful (rt : runtime) (v : pyval) : bool :=
  match v with
  | VNone | VBool _ => true
  | VInt z => int_fits z
  | VStr s =>
      match literal_eval rt s with
      | Rejects => negb (isdigit rt s)
      | _ => false
      end
  | VList l => forallb is_vstr l
  end.

Definition EXAMPLE_REPLY : string :=
  "Hello **world** [ignore] (also ignore)" ++ nl ++ nl ++ "Second paragraph".
Definition EXAMPLE_CLAIMED : string :=
  "Hello world " ++ nl ++ nl ++ "Second paragraph".
Definition EXAMPLE_CLEANED : string :=
  "Hello world  " ++ nl ++ nl ++ "Second paragraph".

(** The default configuration, with a service that answers every request
    with [text]. *)
Definition answering (text : string) : world :=
  {| LLM_PROVIDERS := Config.DEFAULT_PROVIDERS; service := fun _ _ => Returned (Some text);
     requests := 0; trace := [] |}.

End ReplyNotions.

Section PageNotions.
Import MemoryState.


End PageNotions.

Section ScanNotions.



End ScanNotions.

Section RetryNotions.
Import Llm.


End RetryNotions.

Section CleaningNotions.
Import Llm.

Fixpoint sdrop (n : nat) (s : string) : string :=
  match n, s with
  | S k, String _ r => sdrop k r
  | _, _ => s
  end.

End CleaningNotions.

Section ConfigNotions.






End ConfigNotions.

(** * Properties *)

(** ** Text and values *)

Section TextFacts.

Lemma prefix_app (m q : string) : String.prefix m (m ++ q) = true.
Proof.
  induction m as [|a m IH]; simpl.
  - now destruct q.
  - destruct (ascii_dec a a); [exact IH | congruence].
Qed.

Lemma prefix_split (m s : string) :
  String.prefix m s = true -> exists q, s = m ++ q.
Proof.
  revert s; induction m as [|a m IH]; intros s H.
  - now exists s.
  - destruct s as [|b s]; simpl in H; [discriminate|].
    destruct (ascii_dec a b) as [->|]; [|discriminate].
    destruct (IH _ H) as [q ->]. now exists q.
Qed.

Lemma append_assoc (a b c : string) : (a ++ b) ++ c = a ++ (b ++ c).
Proof. induction a as [|x a IH]; simpl; [reflexivity | f_equal; exact IH]. Qed.

Lemma append_nil_r (a : string) : a ++ EmptyString = a.
Proof. induction a as [|x a IH]; simpl; [reflexivity | f_equal; exact IH]. Qed.

Lemma contains_nil (m : string) :
  contains m EmptyString = String.prefix m EmptyString.
Proof. unfold contains. apply orb_false_r. Qed.

Lemma contains_cons (m : string) (c : ascii) (s : string) :
  contains m (String c s) = String.prefix m (String c s) || contains m s.
Proof. reflexivity. Qed.

(** [needle in hay] holds exactly when [hay] is [p ++ needle ++ q]. *)
Lemma contains_spec (m s : string) :
  contains m s = true <-> exists p q, s = p ++ m ++ q.
Proof.
  split.
  - induction s as [|c s IH]; intros H.
    + rewrite contains_nil in H. apply prefix_split in H as [q ->].
      now exists EmptyString, q.
    + rewrite contains_cons in H. apply orb_true_iff in H as [H|H].
      * apply prefix_split in H as [q ->]. now exists EmptyString, q.
      * destruct (IH H) as (p & q & ->). now exists (String c p), q.
  - intros (p & q & ->). induction p as [|c p IH].
    + change (EmptyString ++ m ++ q) with (m ++ q).
      destruct (m ++ q) eqn:E.
      * rewrite contains_nil, <- E. apply prefix_app.
      * rewrite contains_cons, <- E, prefix_app. reflexivity.
    + change (String c p ++ m ++ q) with (String c (p ++ m ++ q)).
      rewrite contains_cons, IH. apply orb_true_r.
Qed.

(** *** [strip] keeps a text that starts and ends with non-space bytes *)

Lemma ws1_inert a : ws_byte a = false -> is_ws1 a = false.
Proof. intros H. solve_false. Qed.

Lemma ws2_inert_l a b : ws_byte a = false -> is_ws2 a b = false.
Proof. intros H. solve_false. Qed.

Lemma ws2_inert_r a b : ws_byte b = false -> is_ws2 a b = false.
Proof. intros H. solve_false. Qed.

Lemma ws3_inert_1 a b c : ws_byte a = false -> is_ws3 a b c = false.
Proof. intros H. solve_false. Qed.

Lemma ws3_inert_2 a b c : ws_byte b = false -> is_ws3 a b c = false.
Proof. intros H. solve_false. Qed.

Lemma ws3_inert_3 a b c : ws_byte c = false -> is_ws3 a b c = false.
Proof. intros H. solve_false. Qed.

Lemma lstrip_keeps (n : nat) : forall (p : string) (a : ascii) (t : string),
  (String.length p <= n)%nat -> ws_byte a = false ->
  exists p', lstrip (p ++ String a t) = p' ++ String a t.
Proof.
  induction n as [|n IH]; intros p a t Hn Ha.
  - destruct p; [|simpl in Hn; lia].
    exists EmptyString. simpl. rewrite (ws1_inert _ Ha).
    destruct t as [|b [|c r]]; rewrite ?ws2_inert_l, ?ws3_inert_1 by exact Ha; reflexivity.
  - destruct p as [|x p1].
    { exists EmptyString. simpl. rewrite (ws1_inert _ Ha).
      destruct t as [|b [|c r]]; rewrite ?ws2_inert_l, ?ws3_inert_1 by exact Ha; reflexivity. }
    simpl in Hn. simpl. destruct (is_ws1 x).
    { apply IH; [lia | exact Ha]. }
    destruct p1 as [|y p2]; simpl.
    { exists (String x EmptyString). rewrite (ws2_inert_r _ _ Ha).
      destruct t; rewrite ?ws3_inert_2 by exact Ha; reflexivity. }
    destruct (is_ws2 x y).
    { simpl in Hn. apply IH; [lia | exact Ha]. }
    destruct p2 as [|z p3]; simpl.
    { exists (String x (String y EmptyString)). now rewrite (ws3_inert_3 _ _ _ Ha). }
    destruct (is_ws3 x y z).
    { simpl in Hn. apply IH; [lia | exact Ha]. }
    now exists (String x (String y (String z p3))).
Qed.

Lemma lstrip_rev_keeps (n : nat) : forall (p : string) (a : ascii) (t : string),
  (String.length p <= n)%nat -> ws_byte a = false ->
  exists p', lstrip_rev (p ++ String a t) = p' ++ String a t.
Proof.
  induction n as [|n IH]; intros p a t Hn Ha.
  - destruct p; [|simpl in Hn; lia].
    exists EmptyString. simpl. rewrite (ws1_inert _ Ha).
    destruct t as [|b [|c r]]; rewrite ?ws2_inert_r, ?ws3_inert_3 by exact Ha; reflexivity.
  - destruct p as [|x p1].
    { exists EmptyString. simpl. rewrite (ws1_inert _ Ha).
      destruct t as [|b [|c r]]; rewrite ?ws2_inert_r, ?ws3_inert_3 by exact Ha; reflexivity. }
    simpl in Hn. simpl. destruct (is_ws1 x).
    { apply IH; [lia | exact Ha]. }
    destruct p1 as [|y p2]; simpl.
    { exists (String x EmptyString). rewrite (ws2_inert_l _ _ Ha).
      destruct t; rewrite ?ws3_inert_2 by exact Ha; reflexivity. }
    destruct (is_ws2 y x).
    { simpl in Hn. apply IH; [lia | exact Ha]. }
    destruct p2 as [|z p3]; simpl.
    { exists (String x (String y EmptyString)). now rewrite (ws3_inert_1 _ _ _ Ha). }
    destruct (is_ws3 z y x).
    { simpl in Hn. apply IH; [lia | exact Ha]. }
    now exists (String x (String y (String z p3))).
Qed.

Lemma rev_onto_spec (s acc : string) : rev_onto s acc = srev s ++ acc.
Proof.
  unfold srev. revert acc. induction s as [|c s IH]; intros acc; simpl.
  - reflexivity.
  - rewrite IH, (IH (String c EmptyString)), append_assoc. reflexivity.
Qed.

Lemma srev_cons (c : ascii) (s : string) : srev (String c s) = srev s ++ String c EmptyString.
Proof. unfold srev at 1. simpl. apply rev_onto_spec. Qed.

Lemma srev_app (a b : string) : srev (a ++ b) = srev b ++ srev a.
Proof.
  induction a as [|c a IH]; simpl.
  - now rewrite append_nil_r.
  - rewrite !srev_cons, IH, append_assoc. reflexivity.
Qed.

Lemma srev_involutive (s : string) : srev (srev s) = s.
Proof.
  induction s as [|c s IH]; [reflexivity|].
  rewrite srev_cons, srev_app, IH. reflexivity.
Qed.

(** A text whose first and last bytes occur in no space character survives
    [strip] wherever it stands. *)
Lemma strip_keeps (m m1 m0 : string) (a z : ascii) (s : string) :
  m = String a m1 -> m = m0 ++ String z EmptyString ->
  ws_byte a = false -> ws_byte z = false ->
  contains m s = true -> contains m (strip s) = true.
Proof.
  intros Hhead Hlast Ha Hz Hin.
  apply contains_spec in Hin as (p & q & ->).
  apply contains_spec. unfold strip, rstrip.
  destruct (lstrip_keeps (String.length p) p a (m1 ++ q) (le_n _) Ha) as [p' Hl].
  assert (El : lstrip (p ++ m ++ q) = p' ++ m ++ q).
  { rewrite Hhead. exact Hl. }
  rewrite El.
  assert (Er : srev (p' ++ m ++ q) = srev q ++ String z (srev m0 ++ srev p')).
  { rewrite !srev_app. rewrite Hlast at 1. rewrite srev_app. simpl.
    change (srev (String z EmptyString)) with (String z EmptyString).
    rewrite !append_assoc. reflexivity. }
  rewrite Er.
  destruct (lstrip_rev_keeps (String.length (srev q)) (srev q) z (srev m0 ++ srev p')
              (le_n _) Hz) as [q' Hr].
  rewrite Hr. exists p', (srev q').
  rewrite srev_app. change (String z (srev m0 ++ srev p'))
    with (String z EmptyString ++ (srev m0 ++ srev p')).
  rewrite !srev_app, !srev_involutive.
  change (srev (String z EmptyString)) with (String z EmptyString).
  rewrite Hlast, !append_assoc. reflexivity.
Qed.

(** *** Reading back what [str] and [repr] write *)

Lemma to_int_norm (z : Z) : Decimal.norm (Z.to_int z) = Z.to_int z.
Proof. rewrite <- (DecimalZ.to_of (Z.to_int z)), DecimalZ.of_to. reflexivity. Qed.

Lemma literal_fragment_int (z : Z) :
  int_fits z = true -> literal_fragment (str_of_Z z) = Literal (VInt z).
Proof.
  unfold int_fits. intros Hfit. unfold literal_fragment. rewrite Hfit. cbn [negb].
  unfold str_of_Z.
  assert (Hn := to_int_norm z).
  rewrite NilZero.isi.
  - unfold canonical_int.
    destruct (Decimal.signed_int_eq_dec (Decimal.norm (Z.to_int z)) (Z.to_int z));
      [|contradiction].
    simpl. now rewrite DecimalZ.of_to.
  - intros E. rewrite E in Hn. discriminate.
  - intros E. rewrite E in Hn. discriminate.
Qed.

Lemma str_body_repr_char (q c : ascii) (tail : string) :
  q = SQ \/ q = DQ ->
  str_body q (repr_char q c ++ tail) = cons_fst c (str_body q tail).
Proof.
  intros [-> | ->];
    destruct c as [[] [] [] [] [] [] [] []]; reflexivity.
Qed.

Lemma str_body_repr (q : ascii) (s rest : string) :
  q = SQ \/ q = DQ ->
  str_body q (repr_body q s ++ String q rest) = Some (s, rest).
Proof.
  intros Hq. induction s as [|c s IH].
  - simpl. rewrite Ascii.eqb_refl. reflexivity.
  - simpl. rewrite append_assoc, str_body_repr_char by exact Hq.
    rewrite IH. reflexivity.
Qed.

Lemma repr_quote_cases (s : string) : repr_quote s = SQ \/ repr_quote s = DQ.
Proof. unfold repr_quote. destruct (_ && _); auto. Qed.

Lemma str_literal_repr (s rest : string) :
  str_literal (repr_str s ++ rest) = Some (s, rest).
Proof.
  unfold repr_str, str_literal. simpl.
  destruct (repr_quote_cases s) as [E|E]; rewrite E; simpl;
    rewrite append_assoc; simpl.
  - apply (str_body_repr SQ); auto.
  - apply (str_body_repr DQ); auto.
Qed.

Lemma list_items_repr (l : list string) (x : string) (fuel : nat) :
  (length l < fuel)%nat ->
  list_items fuel (join ", " (map repr_str (x :: l)) ++ "]") = Some (x :: l).
Proof.
  revert x fuel. induction l as [|y l IH]; intros x fuel Hf.
  - destruct fuel as [|k]; [lia|].
    change (join ", " (map repr_str [x])) with (repr_str x).
    cbn [list_items]. rewrite str_literal_repr. reflexivity.
  - destruct fuel as [|k]; [simpl in Hf; lia|].
    change (join ", " (map repr_str (x :: y :: l)))
      with (repr_str x ++ ", " ++ join ", " (map repr_str (y :: l))).
    cbn [list_items]. rewrite !append_assoc, str_literal_repr.
    change (", " ++ join ", " (map repr_str (y :: l)) ++ "]")
      with (String "," (String " " (join ", " (map repr_str (y :: l)) ++ "]"))).
    cbv iota. rewrite IH by (simpl in Hf; lia). reflexivity.
Qed.

Lemma length_append (a b : string) :
  String.length (a ++ b) = (String.length a + String.length b)%nat.
Proof. induction a as [|c a IH]; simpl; [reflexivity | now rewrite IH]. Qed.

Lemma length_repr_str (s : string) : (2 <= String.length (repr_str s))%nat.
Proof. unfold repr_str. simpl. rewrite length_append. simpl. lia. Qed.

Lemma length_join_repr (x : string) (l : list string) :
  (length l < String.length (join ", " (map repr_str (x :: l)) ++ "]"))%nat.
Proof.
  revert x. induction l as [|y l IH]; intros x.
  - simpl. rewrite length_append. simpl. lia.
  - change (join ", " (map repr_str (x :: y :: l)))
      with (repr_str x ++ ", " ++ join ", " (map repr_str (y :: l))).
    rewrite !append_assoc, length_append. specialize (IH y).
    change (String.length (", " ++ join ", " (map repr_str (y :: l)) ++ "]"))
      with (S (S (String.length (join ", " (map repr_str (y :: l)) ++ "]")))).
    simpl in *. lia.
Qed.

Lemma list_literal_open (r : string) :
  list_literal (String "[" r)
  = if String.eqb r "]" then Some [] else list_items (String.length r) r.
Proof. reflexivity. Qed.

Lemma list_literal_repr (l : list string) :
  list_literal ("[" ++ join ", " (map repr_str l) ++ "]") = Some l.
Proof.
  destruct l as [|x l]; [reflexivity|].
  change ("[" ++ join ", " (map repr_str (x :: l)) ++ "]")
    with (String "[" (join ", " (map repr_str (x :: l)) ++ "]")).
  assert (Hne : String.eqb (join ", " (map repr_str (x :: l)) ++ "]") "]" = false).
  { apply String.eqb_neq. intros E.
    apply (f_equal String.length) in E.
    pose proof (length_join_repr x l) as H1.
    destruct l as [|y l].
    - simpl in E. rewrite length_append in E.
      pose proof (length_repr_str x). simpl in E. lia.
    - rewrite E in H1. simpl in H1. lia. }
  rewrite list_literal_open, Hne. apply list_items_repr, length_join_repr.
Qed.

Lemma map_py_repr_str (l : list string) :
  map py_repr (map VStr l) = map repr_str l.
Proof. induction l as [|x l IH]; simpl; [reflexivity | now rewrite IH]. Qed.

Lemma int_of_string_bracket (r : string) :
  NilZero.int_of_string (String "[" r) = None.
Proof.
  unfold NilZero.int_of_string, NilZero.uint_of_string. simpl.
  unfold uint_of_char. destruct (NilEmpty.uint_of_string r); reflexivity.
Qed.

Lemma literal_fragment_bracket (r : string) :
  literal_fragment (String "[" r)
  = match list_literal (String "[" r) with
    | Some l => Literal (VList (map VStr l))
    | None => Unmodelled
    end.
Proof. unfold literal_fragment. rewrite int_of_string_bracket. reflexivity. Qed.

Lemma printable_str_list (l : list string) : printable (VList (map VStr l)) = true.
Proof. cbn. induction l as [|x l IH]; [reflexivity | exact IH]. Qed.

Lemma py_str_str_list (l : list string) :
  py_str (VList (map VStr l)) = Ok ("[" ++ join ", " (map repr_str l) ++ "]").
Proof.
  unfold py_str. rewrite printable_str_list.
  unfold py_repr; fold py_repr. now rewrite map_py_repr_str.
Qed.

Lemma literal_fragment_str_list (l : list string) :
  literal_fragment ("[" ++ join ", " (map repr_str l) ++ "]")
  = Literal (VList (map VStr l)).
Proof.
  change ("[" ++ join ", " (map repr_str l) ++ "]")
    with (String "[" (join ", " (map repr_str l) ++ "]")).
  rewrite literal_fragment_bracket.
  change (String "[" (join ", " (map repr_str l) ++ "]"))
    with ("[" ++ join ", " (map repr_str l) ++ "]").
  rewrite list_literal_repr. reflexivity.
Qed.

End TextFacts.


(** ** The task state store *)

Section StoreFacts0.

Section StoreFacts.
Context {V : Type}.
Implicit Types (d : ODict.t V) (k : string) (v : V).

Lemma odict_get_set_eq k v d : ODict.get k (ODict.set k v d) = Some v.
Proof.
  induction d as [|[k' v'] d IH]; simpl.
  - now rewrite String.eqb_refl.
  - destruct (String.eqb k k') eqn:E; simpl; rewrite ?String.eqb_refl, ?E; auto.
Qed.

Lemma odict_get_set_ne k k' v d :
  k <> k' -> ODict.get k' (ODict.set k v d) = ODict.get k' d.
Proof.
  intros Hne. induction d as [|[k2 v2] d IH]; simpl.
  - apply String.eqb_neq in Hne. rewrite String.eqb_sym in Hne. now rewrite Hne.
  - destruct (String.eqb k k2) eqn:E; simpl.
    + apply String.eqb_eq in E as <-.
      assert (String.eqb k' k = false) as -> by (apply String.eqb_neq; congruence).
      reflexivity.
    + now rewrite IH.
Qed.

Lemma odict_set_set k v v' d :
  ODict.set k v' (ODict.set k v d) = ODict.set k v' d.
Proof.
  induction d as [|[k2 v2] d IH]; simpl.
  - now rewrite String.eqb_refl.
  - destruct (String.eqb k k2) eqn:E; simpl; rewrite ?String.eqb_refl, ?E, ?IH; auto.
Qed.
Lemma odict_get_none_keys k d : ODict.get k d = None <-> ~ In k (ODict.keys d).
Proof.
  induction d as [|[k' v'] d IH]; simpl.
  - tauto.
  - destruct (String.eqb k k') eqn:E.
    + apply String.eqb_eq in E as ->. split; [discriminate | tauto].
    + apply String.eqb_neq in E. rewrite IH. split; [intros H [H1|H1]; auto | tauto].
Qed.

Lemma odict_keys_set_present k v v0 d :
  ODict.get k d = Some v0 -> ODict.keys (ODict.set k v d) = ODict.keys d.
Proof.
  induction d as [|[k' v'] d IH]; simpl; [discriminate|].
  destruct (String.eqb k k') eqn:E; simpl.
  - apply String.eqb_eq in E as ->. reflexivity.
  - intros H. now rewrite IH.
Qed.

Lemma odict_keys_set_absent k v d :
  ODict.get k d = None -> ODict.keys (ODict.set k v d) = (ODict.keys d ++ [k])%list.
Proof.
  induction d as [|[k' v'] d IH]; simpl; [reflexivity|].
  destruct (String.eqb k k') eqn:E; simpl; [discriminate|].
  intros H. now rewrite IH.
Qed.

Lemma odict_nodup_set k v d : NoDup (ODict.keys d) -> NoDup (ODict.keys (ODict.set k v d)).
Proof.
  intros Hnd. destruct (ODict.get k d) as [v0|] eqn:E.
  - now rewrite (odict_keys_set_present _ _ _ _ E).
  - rewrite (odict_keys_set_absent _ _ _ E).
    apply NoDup_app. split; [exact Hnd|]. split.
    + intros x Hx [->|[]]%list_elem_of_In. apply odict_get_none_keys in E.
      apply E. now apply list_elem_of_In.
    + apply NoDup_singleton.
Qed.

Lemma odict_set_app_absent k v (base d : ODict.t V) :
  ODict.get k base = None ->
  ODict.set k v (base ++ d)%list = (base ++ ODict.set k v d)%list.
Proof.
  induction base as [|[k' v'] base IH]; simpl; [reflexivity|].
  destruct (String.eqb k k'); [discriminate|]. intros H. now rewrite IH.
Qed.
End StoreFacts.

Import MemoryState.

Lemma update_task_new task_id state p kwargs w :
  get_task task_id w = None ->
  snd (update_task task_id state p kwargs w)
  = {| tasks :=
         ODict.set task_id
           (<["updated_at" := VStr (now_iso w (2 + ticks w)%nat)]>
              (kwargs ∪ new_record task_id state (capped p)
                          (now_iso w (ticks w)) (now_iso w (S (ticks w)))))
           (tasks w);
       now_iso := now_iso w;
       ticks := (3 + ticks w)%nat |}.
Proof.
  unfold get_task. intros Hnew. unfold update_task. rewrite Hnew.
  cbn [datetime_now_isoformat with_tasks tasks now_iso ticks].
  rewrite odict_get_set_eq. cbn [with_tasks tasks now_iso ticks snd].
  unfold set_field. cbn [tasks now_iso ticks with_tasks].
  rewrite odict_get_set_eq, !odict_set_set.
  unfold capped, py_int, with_tasks. cbn [tasks now_iso ticks].
  replace (if 100 <? p then 100 else p) with (Z.min p 100).
  2:{ destruct (Z.ltb_spec 100 p); lia. }
  reflexivity.
Qed.

Lemma update_task_old task_id state p kwargs w r :
  get_task task_id w = Some r ->
  snd (update_task task_id state p kwargs w)
  = {| tasks :=
         ODict.set task_id
           (<["updated_at" := VStr (now_iso w (ticks w))]> (kwargs ∪ r)) (tasks w);
       now_iso := now_iso w;
       ticks := S (ticks w) |}.
Proof.
  unfold get_task. intros Hold. unfold update_task. rewrite Hold.
  cbn [datetime_now_isoformat with_tasks tasks now_iso ticks]. rewrite Hold.
  cbn [with_tasks tasks now_iso ticks snd].
  unfold set_field. cbn [tasks now_iso ticks with_tasks].
  rewrite odict_get_set_eq, !odict_set_set. reflexivity.
Qed.

Lemma memory_field_set task_id key d rec nw tk :
  memory_field task_id key
    {| tasks := ODict.set task_id rec d; now_iso := nw; ticks := tk |} = rec !! key.
Proof.
  unfold memory_field, get_task. cbn [tasks]. rewrite odict_get_set_eq. reflexivity.
Qed.

Lemma capped_spec p : (if 100 <? py_int p then 100 else py_int p) = Z.min (py_int p) 100.
Proof. destruct (Z.ltb_spec 100 (py_int p)); lia. Qed.

Lemma convert_int rt z :
  int_fits z = true ->
  RedisState._convert_to_original_type rt (str_of_Z z) = Ok (Known (VInt z)).
Proof.
  intros Hz. unfold RedisState._convert_to_original_type, literal_eval.
  now rewrite literal_fragment_int.
Qed.

Lemma hgetall_hset key f v (r : RedisState.db) :
  RedisState.hgetall key (RedisState.hset key f v r) = <[f := v]> (RedisState.hgetall key r).
Proof. unfold RedisState.hset. unfold RedisState.hgetall at 1. now rewrite lookup_insert_eq. Qed.

Lemma write_fields_other task_id f : forall fields (r : RedisState.db),
  ODict.get f fields = None ->
  RedisState.hgetall task_id (snd (RedisState.write_fields task_id fields r)) !! f
  = RedisState.hgetall task_id r !! f.
Proof.
  induction fields as [|[k v] fields IH]; intros r H; cbn in *; [reflexivity|].
  destruct (String.eqb f k) eqn:E; [discriminate|].
  destruct (py_str v); cbn; [|reflexivity].
  rewrite IH by exact H. rewrite hgetall_hset, lookup_insert_ne; [reflexivity|].
  apply String.eqb_neq in E. congruence.
Qed.

Lemma write_fields_ok task_id : forall fields (r r' : RedisState.db),
  NoDup (ODict.keys fields) ->
  RedisState.write_fields task_id fields r = (Ok tt, r') ->
  forall f v, ODict.get f fields = Some v ->
  exists text, py_str v = Ok text /\ RedisState.hgetall task_id r' !! f = Some text.
Proof.
  induction fields as [|[k v0] fields IH]; intros r r' Hnd Hw f v Hget; cbn in *;
    [discriminate|].
  apply NoDup_cons in Hnd as [Hnotin Hnd]. rewrite list_elem_of_In in Hnotin.
  destruct (py_str v0) as [text|e] eqn:Es; [|discriminate].
  destruct (String.eqb f k) eqn:E.
  - apply String.eqb_eq in E as ->. injection Hget as <-.
    exists text. split; [exact Es|].
    pose proof (write_fields_other task_id k fields (RedisState.hset task_id k text r)
                  (proj2 (odict_get_none_keys k fields) Hnotin)) as Ho.
    rewrite Hw in Ho. cbn [snd] in Ho. rewrite Ho, hgetall_hset.
    apply lookup_insert_eq.
  - eapply IH; eauto.
Qed.

Lemma fields_fold_none {V} f : forall (kwargs d : ODict.t V),
  ODict.get f kwargs = None ->
  ODict.get f (fold_left (fun d kv => ODict.set (fst kv) (snd kv) d) kwargs d)
  = ODict.get f d.
Proof.
  induction kwargs as [|[k v] kwargs IH]; intros d H; cbn in *; [reflexivity|].
  destruct (String.eqb f k) eqn:E; [discriminate|].
  rewrite IH by exact H. apply odict_get_set_ne.
  apply String.eqb_neq in E. congruence.
Qed.

Lemma fields_fold_some {V} f (v : V) : forall (kwargs d : ODict.t V),
  NoDup (ODict.keys kwargs) ->
  ODict.get f kwargs = Some v ->
  ODict.get f (fold_left (fun d kv => ODict.set (fst kv) (snd kv) d) kwargs d) = Some v.
Proof.
  induction kwargs as [|[k v0] kwargs IH]; intros d Hnd H; cbn in *; [discriminate|].
  apply NoDup_cons in Hnd as [Hnotin Hnd]. rewrite list_elem_of_In in Hnotin.
  destruct (String.eqb f k) eqn:E.
  - apply String.eqb_eq in E as ->. injection H as <-.
    rewrite fields_fold_none by now apply odict_get_none_keys.
    apply odict_get_set_eq.
  - now apply IH.
Qed.

Lemma fields_fold_nodup {V} : forall (kwargs d : ODict.t V),
  NoDup (ODict.keys d) ->
  NoDup (ODict.keys (fold_left (fun d kv => ODict.set (fst kv) (snd kv) d) kwargs d)).
Proof.
  induction kwargs as [|[k v] kwargs IH]; intros d H; cbn; [exact H|].
  apply IH. now apply odict_nodup_set.
Qed.

Lemma fields_fold_app {V} (base : ODict.t V) : forall (kwargs d : ODict.t V),
  (forall k, In k (ODict.keys kwargs) -> ODict.get k base = None) ->
  fold_left (fun d kv => ODict.set (fst kv) (snd kv) d) kwargs (base ++ d)%list
  = (base ++ fold_left (fun d kv => ODict.set (fst kv) (snd kv) d) kwargs d)%list.
Proof.
  induction kwargs as [|[k v] kwargs IH]; intros d H; cbn; [reflexivity|].
  rewrite odict_set_app_absent by (apply H; now left).
  apply IH. intros k' Hk'. apply H. now right.
Qed.

(** With keyword arguments that Python can bind to [kwargs], the three
    named fields come first, with the values of the parameters. *)
Lemma redis_fields_split task_id state c kwargs :
  ODict.get "task_id" kwargs = None ->
  ODict.get "state" kwargs = None ->
  ODict.get "progress" kwargs = None ->
  redis_fields task_id state c kwargs
  = (("task_id", VStr task_id) :: ("state", VInt state) :: ("progress", VInt c)
     :: fold_left (fun d kv => ODict.set (fst kv) (snd kv) d) kwargs [])%list.
Proof.
  intros H1 H2 H3. unfold redis_fields.
  change [("task_id", VStr task_id); ("state", VInt state); ("progress", VInt c)]
    with ([("task_id", VStr task_id); ("state", VInt state); ("progress", VInt c)] ++ [])%list.
  rewrite fields_fold_app; [reflexivity|].
  intros k Hk. cbn.
  destruct (String.eqb k "task_id") eqn:E1;
    [apply String.eqb_eq in E1 as ->; now apply odict_get_none_keys in H1|].
  destruct (String.eqb k "state") eqn:E2;
    [apply String.eqb_eq in E2 as ->; now apply odict_get_none_keys in H2|].
  destruct (String.eqb k "progress") eqn:E3;
    [apply String.eqb_eq in E3 as ->; now apply odict_get_none_keys in H3|].
  reflexivity.
Qed.

Lemma redis_update_task_unfold task_id state p kwargs (r : RedisState.db) :
  RedisState.update_task task_id state p kwargs r
  = RedisState.write_fields task_id
      (redis_fields task_id state (Z.min (py_int p) 100) kwargs) r.
Proof. unfold RedisState.update_task. now rewrite capped_spec. Qed.

Lemma redis_fields_nodup task_id state c kwargs :
  NoDup (ODict.keys (redis_fields task_id state c kwargs)).
Proof.
  apply fields_fold_nodup. cbn.
  repeat (apply NoDup_cons; split;
          [rewrite list_elem_of_In; cbn; intuition discriminate|]).
  apply NoDup_nil_2.
Qed.

(** The progress field is written before any value of [kwargs] is
    printed. *)
Lemma redis_progress_stored task_id state p kwargs (r : RedisState.db) :
  int_fits state = true ->
  int_fits (Z.min (py_int p) 100) = true ->
  ODict.get "task_id" kwargs = None ->
  ODict.get "state" kwargs = None ->
  ODict.get "progress" kwargs = None ->
  RedisState.hgetall task_id (snd (RedisState.update_task task_id state p kwargs r))
    !! "progress" = Some (str_of_Z (Z.min (py_int p) 100)).
Proof.
  intros Hs Hp H1 H2 H3.
  rewrite redis_update_task_unfold, (redis_fields_split _ _ _ _ H1 H2 H3).
  cbn [RedisState.write_fields]. unfold py_str. cbn [printable]. rewrite Hs, Hp.
  rewrite write_fields_other by (rewrite fields_fold_none by exact H3; reflexivity).
  now rewrite hgetall_hset, lookup_insert_eq.
Qed.

Lemma decode_items_ok rt (l : list (string * string)) :
  forallb (fun kv : string * string =>
             match RedisState._convert_to_original_type rt (snd kv) with
             | Ok _ => true
             | Raise _ => false
             end) l = true ->
  RedisState.decode_items rt l = Ok (prod_map id (decode_or rt) <$> l).
Proof.
  induction l as [|[k s] l IH]; cbn; [reflexivity|].
  unfold decode_or at 1.
  destruct (RedisState._convert_to_original_type rt s); cbn; [|discriminate].
  intros H. now rewrite IH.
Qed.

Lemma decode_items_raise rt (l : list (string * string)) :
  forallb (fun kv : string * string =>
             match RedisState._convert_to_original_type rt (snd kv) with
             | Ok _ => true
             | Raise _ => false
             end) l = false ->
  exists e, RedisState.decode_items rt l = Raise e.
Proof.
  induction l as [|[k s] l IH]; cbn; [discriminate|].
  destruct (RedisState._convert_to_original_type rt s); cbn; [|eauto].
  intros H. destruct (IH H) as [e ->]. eauto.
Qed.

Lemma decode_hash_ok rt (h : gmap string string) :
  decodes rt h = true -> RedisState.decode_hash rt h = Ok (decode_or rt <$> h).
Proof.
  unfold decodes, RedisState.decode_hash. intros H.
  rewrite (decode_items_ok _ _ H).
  now rewrite list_to_map_fmap, list_to_map_to_list.
Qed.

Lemma decode_hash_raise rt (h : gmap string string) :
  decodes rt h = false -> exists e, RedisState.decode_hash rt h = Raise e.
Proof.
  unfold decodes, RedisState.decode_hash. intros H.
  destruct (decode_items_raise _ _ H) as [e ->]. eauto.
Qed.

Lemma decodes_lookup rt (h : gmap string string) k s :
  decodes rt h = true -> h !! k = Some s ->
  RedisState._convert_to_original_type rt s = Ok (decode_or rt s).
Proof.
  unfold decodes. intros H Hk. rewrite forallb_forall in H.
  specialize (H (k, s)). cbn in H. unfold decode_or.
  destruct (RedisState._convert_to_original_type rt s); [reflexivity|].
  discriminate H. apply list_elem_of_In. now apply elem_of_map_to_list.
Qed.

(** [get_task] returns exactly when every stored field decodes, and then
    each field of the record is the decoded text. *)
Lemma redis_field_stored rt task_id key (r : RedisState.db) s :
  RedisState.hgetall task_id r !! key = Some s ->
  match redis_field rt task_id key r with
  | Ok out =>
      decodes rt (RedisState.hgetall task_id r) = true
      /\ out = Some (decode_or rt s)
      /\ RedisState._convert_to_original_type rt s = Ok (decode_or rt s)
  | Raise _ => decodes rt (RedisState.hgetall task_id r) = false
  end.
Proof.
  intros Hk. unfold redis_field, RedisState.get_task.
  rewrite bool_decide_eq_false_2.
  2:{ intros E. rewrite E, lookup_empty in Hk. discriminate. }
  destruct (decodes rt (RedisState.hgetall task_id r)) eqn:Ed.
  - rewrite (decode_hash_ok _ _ Ed). cbn. rewrite lookup_fmap, Hk. cbn.
    split; [reflexivity|]. split; [reflexivity|]. eapply decodes_lookup; eauto.
  - destruct (decode_hash_raise _ _ Ed) as [e ->]. reflexivity.
Qed.

(** C1, as amended.  After [update_task(task_id, progress = p)] the stored
    progress is [min(int(p), 100)]: in the in-process store for a task that
    is not yet there, and in the persisted store for any task, where the
    hash field holds the decimal text of that number (the state and the
    number being within the digit limit of [str]), the text decodes to the
    number, and [get_task] returns exactly when every stored field decodes
    and then gives the number.  The stored progress never exceeds 100;
    there is no lower clamp, so it is below 0 exactly when [p] is. *)
Theorem update_task_progress_capped rt task_id state p (fields : record)
    (kwargs : ODict.t pyval) w (r : RedisState.db) :
  fields !! "progress" = None ->
  get_task task_id w = None ->
  int_fits state = true ->
  int_fits (Z.min (py_int p) 100) = true ->
  ODict.get "task_id" kwargs = None ->
  ODict.get "state" kwargs = None ->
  ODict.get "progress" kwargs = None ->
  let r' := snd (RedisState.update_task task_id state p kwargs r) in
  memory_field task_id "progress" (snd (update_task task_id state p fields w))
    = Some (VInt (Z.min (py_int p) 100))
  /\ RedisState.hgetall task_id r' !! "progress" = Some (str_of_Z (Z.min (py_int p) 100))
  /\ RedisState._convert_to_original_type rt (str_of_Z (Z.min (py_int p) 100))
     = Ok (Known (VInt (Z.min (py_int p) 100)))
  /\ match redis_field rt task_id "progress" r' with
     | Ok out =>
         decodes rt (RedisState.hgetall task_id r') = true
         /\ out = Some (Known (VInt (Z.min (py_int p) 100)))
     | Raise _ => decodes rt (RedisState.hgetall task_id r') = false
     end
  /\ Z.min (py_int p) 0 <= Z.min (py_int p) 100 <= 100.
Proof.
  intros Hk Hnew Hs Hp H1 H2 H3 r'.
  pose proof (redis_progress_stored task_id state p kwargs r Hs Hp H1 H2 H3) as Hstored.
  fold r' in Hstored.
  pose proof (convert_int rt _ Hp) as Hconv.
  split; [|split; [exact Hstored | split; [exact Hconv | split; [|lia]]]].
  - rewrite (update_task_new _ _ _ _ _ Hnew), memory_field_set.
    rewrite lookup_insert_ne by done.
    rewrite lookup_union_r by exact Hk.
    unfold new_record. rewrite !lookup_insert_ne by done.
    now rewrite lookup_insert_eq.
  - pose proof (redis_field_stored rt task_id "progress" r' _ Hstored) as H.
    destruct (redis_field rt task_id "progress" r') as [out|e]; [|exact H].
    destruct H as (Hd & -> & Hc). split; [exact Hd|].
    rewrite Hconv in Hc. injection Hc as <-. reflexivity.
Qed.

(** The statement of C1 at a progress of 250, on empty stores: both
    backends give 100. *)
Lemma update_task_progress_capped_witness :
  memory_field "job" "progress"
    (snd (update_task "job" 4 250 ∅ (init sample_clock))) = Some (VInt 100)
  /\ redis_field strict_runtime "job" "progress"
       (snd (RedisState.update_task "job" 4 250 [] ∅)) = Ok (Some (Known (VInt 100))).
Proof.
  assert (Hk : (∅ : record) !! "progress" = None) by reflexivity.
  assert (Hnew : get_task "job" (init sample_clock) = None) by reflexivity.
  assert (Hs : int_fits 4 = true) by reflexivity.
  assert (Hp : int_fits (Z.min (py_int 250) 100) = true) by reflexivity.
  destruct (update_task_progress_capped strict_runtime "job" 4 250 ∅ [] (init sample_clock) ∅
              Hk Hnew Hs Hp eq_refl eq_refl eq_refl) as (H1 & _ & _ & H4 & _).
  split; [exact H1|].
  assert (E : redis_field strict_runtime "job" "progress"
                (snd (RedisState.update_task "job" 4 250 [] ∅))
              = Ok (Some (Known (VInt 100)))) by (vm_compute; reflexivity).
  exact E.
Defined.

(** C1 as stated fails: a progress of -5 is stored as -5 by both backends,
    where the claim gives [min(max(-5, 0), 100) = 0]. *)
Lemma negative_progress_is_stored :
  memory_field "job" "progress"
    (snd (update_task "job" 4 (-5) ∅ (init sample_clock))) = Some (VInt (-5))
  /\ RedisState.hgetall "job" (snd (RedisState.update_task "job" 4 (-5) [] ∅)) !! "progress"
     = Some "-5"
  /\ redis_field strict_runtime "job" "progress"
       (snd (RedisState.update_task "job" 4 (-5) [] ∅)) = Ok (Some (Known (VInt (-5))))
  /\ VInt (-5) <> VInt (Z.min (Z.max (py_int (-5)) 0) 100).
Proof. split; [|split; [|split]]; [vm_compute; reflexivity .. | discriminate]. Qed.

(** C2, at the failing input.  The same two calls, [update_task("job",
    state = 4, progress = 10)] then [update_task("job", state = 1,
    progress = 100)], leave the in-process backend with state 4 and
    progress 10 and the persisted backend with state 1 and progress 100;
    the in-process record has an [updated_at] field, the persisted one has
    none.  None of the calls raises. *)
Theorem backends_disagree_after_second_update (rt : runtime) :
  let m := snd (update_task "job" 1 100 ∅
                  (snd (update_task "job" 4 10 ∅ (init sample_clock)))) in
  let r := snd (RedisState.update_task "job" 1 100 []
                  (snd (RedisState.update_task "job" 4 10 [] ∅))) in
  memory_field "job" "state" m = Some (VInt 4)
  /\ memory_field "job" "progress" m = Some (VInt 10)
  /\ redis_field rt "job" "state" r = Ok (Some (Known (VInt 1)))
  /\ redis_field rt "job" "progress" r = Ok (Some (Known (VInt 100)))
  /\ memory_field "job" "updated_at" m = Some (VStr (sample_clock 3))
  /\ redis_field rt "job" "updated_at" r = Ok None
  /\ fst (update_task "job" 4 10 ∅ (init sample_clock)) = Ok tt
  /\ fst (update_task "job" 1 100 ∅ (snd (update_task "job" 4 10 ∅ (init sample_clock))))
     = Ok tt
  /\ fst (RedisState.update_task "job" 4 10 [] ∅) = Ok tt
  /\ fst (RedisState.update_task "job" 1 100 []
            (snd (RedisState.update_task "job" 4 10 [] ∅))) = Ok tt.
Proof. repeat split; vm_compute; reflexivity. Qed.


End StoreFacts0.

(** ** Timestamps *)

Section ClockFacts.
Import MemoryState.

Lemma stamped_unfold w : stamped w = forallb (stamp_ok (now_iso w) (ticks w)) (tasks w).
Proof. reflexivity. Qed.

Lemma stamp_ok_spec nw tk entry :
  stamp_ok nw tk entry = true
  <-> exists i, (i < tk)%nat /\ snd entry !! "updated_at" = Some (VStr (nw i)).
Proof.
  unfold stamp_ok. split.
  - destruct (snd entry !! "updated_at") as [[| | |s|]|]; try discriminate.
    intros H. apply existsb_exists in H as (i & Hi & E).
    apply in_seq in Hi. apply String.eqb_eq in E as ->. exists i. split; [lia | reflexivity].
  - intros (i & Hi & ->). apply existsb_exists. exists i. split.
    + apply in_seq. lia.
    + apply String.eqb_refl.
Qed.

Lemma stamp_ok_mono nw tk tk' entry :
  (tk <= tk')%nat -> stamp_ok nw tk entry = true -> stamp_ok nw tk' entry = true.
Proof.
  intros Hle H. apply stamp_ok_spec in H as (i & Hi & E).
  apply stamp_ok_spec. exists i. split; [lia | exact E].
Qed.

Lemma forallb_set {V} (f : string * V -> bool) k v (d : ODict.t V) :
  f (k, v) = true -> forallb f d = true -> forallb f (ODict.set k v d) = true.
Proof.
  intros Hf. induction d as [|[k' v'] d IH]; simpl.
  - now rewrite Hf.
  - intros H. apply andb_true_iff in H as [H1 H2].
    destruct (String.eqb k k'); simpl.
    + now rewrite Hf, H2.
    + now rewrite H1, IH.
Qed.

Lemma forallb_get {V} (f : string * V -> bool) k v (d : ODict.t V) :
  forallb f d = true -> ODict.get k d = Some v -> f (k, v) = true.
Proof.
  induction d as [|[k' v'] d IH]; simpl; [discriminate|].
  intros H. apply andb_true_iff in H as [H1 H2].
  destruct (String.eqb k k') eqn:E.
  - apply String.eqb_eq in E as ->. intros [= ->]. exact H1.
  - now apply IH.
Qed.

Lemma forallb_weaken {A} (f g : A -> bool) (l : list A) :
  (forall x, f x = true -> g x = true) -> forallb f l = true -> forallb g l = true.
Proof.
  intros Hfg. induction l as [|x l IH]; simpl; [reflexivity|].
  intros H. apply andb_true_iff in H as [H1 H2]. now rewrite (Hfg _ H1), IH.
Qed.

(** [update_task] keeps every [updated_at] a reading of the clock. *)
Lemma stamped_update_task task_id state p kwargs w :
  stamped w = true -> stamped (snd (update_task task_id state p kwargs w)) = true.
Proof.
  intros Hs. rewrite stamped_unfold in Hs.
  destruct (get_task task_id w) as [r|] eqn:E.
  - rewrite (update_task_old _ _ _ _ _ _ E), stamped_unfold. cbn [tasks now_iso ticks].
    apply forallb_set.
    + apply stamp_ok_spec. exists (ticks w). split; [lia|].
      cbn [snd]. now rewrite lookup_insert_eq.
    + revert Hs. apply forallb_weaken. intros x. apply stamp_ok_mono. lia.
  - rewrite (update_task_new _ _ _ _ _ E), stamped_unfold. cbn [tasks now_iso ticks].
    apply forallb_set.
    + apply stamp_ok_spec. exists (2 + ticks w)%nat. split; [lia|].
      cbn [snd]. now rewrite lookup_insert_eq.
    + revert Hs. apply forallb_weaken. intros x. apply stamp_ok_mono. lia.
Qed.

(** C3, as amended, for the in-process backend.  When the extra fields do
    not name [created_at]: on a task seen for the first time, [created_at]
    is the reading of the clock taken first and [updated_at] the reading
    taken third by the call (they are equal only if the clock shows the
    same text at both); on a task already present, [created_at] is left as
    it was and [updated_at] becomes the newest reading, which is not
    earlier than the previous [updated_at] when the clock does not run
    backwards.  Every [updated_at] in the store remains a reading of the
    clock. *)
Theorem memory_timestamps task_id state p kwargs w :
  kwargs !! "created_at" = None ->
  stamped w = true ->
  clock_not_behind w = true ->
  let w' := snd (update_task task_id state p kwargs w) in
  stamped w' = true
  /\ now_iso w' = now_iso w
  /\ match get_task task_id w with
     | None =>
         memory_field task_id "created_at" w' = Some (VStr (now_iso w (ticks w)))
         /\ memory_field task_id "updated_at" w'
            = Some (VStr (now_iso w (2 + ticks w)%nat))
     | Some r =>
         memory_field task_id "created_at" w' = r !! "created_at"
         /\ exists old,
              r !! "updated_at" = Some (VStr old)
              /\ memory_field task_id "updated_at" w'
                 = Some (VStr (now_iso w (ticks w)))
              /\ String.leb old (now_iso w (ticks w)) = true
     end.
Proof.
  intros Hk Hs Hc w'. split; [now apply stamped_update_task|].
  subst w'. destruct (get_task task_id w) as [r|] eqn:E.
  - rewrite (update_task_old _ _ _ _ _ _ E). split; [reflexivity|].
    rewrite !memory_field_set. split.
    + rewrite lookup_insert_ne by done. now rewrite lookup_union_r.
    + rewrite stamped_unfold in Hs.
      pose proof (forallb_get _ _ _ _ Hs E) as Hr.
      apply stamp_ok_spec in Hr as (i & Hi & Hr). cbn [snd] in Hr.
      exists (now_iso w i). split; [exact Hr|]. split; [now rewrite lookup_insert_eq|].
      unfold clock_not_behind in Hc. rewrite forallb_forall in Hc.
      apply Hc, in_seq. lia.
  - rewrite (update_task_new _ _ _ _ _ E). split; [reflexivity|].
    rewrite !memory_field_set. split.
    + rewrite lookup_insert_ne by done. rewrite lookup_union_r by exact Hk.
      unfold new_record. rewrite lookup_insert_ne by done. now rewrite lookup_insert_eq.
    + now rewrite lookup_insert_eq.
Qed.

(** The statement of C3 at a second update of a task, the clock advancing at
    every reading. *)
Lemma memory_timestamps_witness :
  memory_field "job" "created_at" (snd (update_task "job" 1 100 ∅ one_task))
  = Some (VStr (sample_clock 0))
  /\ memory_field "job" "updated_at" (snd (update_task "job" 1 100 ∅ one_task))
     = Some (VStr (sample_clock 3)).
Proof.
  assert (Hk : (∅ : record) !! "created_at" = None) by reflexivity.
  assert (Hs : stamped one_task = true) by (vm_compute; reflexivity).
  assert (Hc : clock_not_behind one_task = true) by (vm_compute; reflexivity).
  destruct (memory_timestamps "job" 1 100 ∅ one_task Hk Hs Hc) as (_ & _ & H).
  change (get_task "job" one_task) with (Some (<["updated_at" := VStr (sample_clock 2)]>
    (∅ ∪ new_record "job" 4 10 (sample_clock 0) (sample_clock 1)))) in H.
  destruct H as (H1 & old & _ & H2 & _).
  split; [rewrite H1; vm_compute; reflexivity | exact H2].
Defined.

(** C3 as stated fails: with a clock that advances between readings the
    first write leaves [created_at] and [updated_at] different, and the
    persisted backend stores neither field, on the first write or later. *)
Lemma timestamps_differ_on_first_write :
  let w := snd (update_task "job" 4 10 ∅ (init sample_clock)) in
  memory_field "job" "created_at" w = Some (VStr "2024-05-01T10:00:00.000000")
  /\ memory_field "job" "updated_at" w = Some (VStr "2024-05-01T10:00:00.000002")
  /\ memory_field "job" "created_at" w <> memory_field "job" "updated_at" w
  /\ redis_field strict_runtime "job" "created_at"
       (snd (RedisState.update_task "job" 4 10 [] ∅)) = Ok None
  /\ redis_field strict_runtime "job" "updated_at"
       (snd (RedisState.update_task "job" 1 100 []
               (snd (RedisState.update_task "job" 4 10 [] ∅))))
     = Ok None.
Proof.
  cbv zeta. repeat split; try (vm_compute; reflexivity).
  vm_compute. discriminate.
Qed.


End ClockFacts.

(** ** The semantic retry layer *)

Section SemanticFacts.
Import Llm.

Lemma emit_logged ev w : emit ev w = (Ok tt, logged [ev] w).
Proof. reflexivity. Qed.

Lemma log_logged lvl msg w : log lvl msg w = (Ok tt, logged [Log lvl msg] w).
Proof. reflexivity. Qed.

Lemma logged_logged a b w : logged a (logged b w) = logged (b ++ a) w.
Proof. unfold logged. cbn. now rewrite <- app_assoc. Qed.

Lemma bind_ok {A B} (m : M A) (f : A -> M B) w a w' :
  m w = (Ok a, w') -> (m ≫= f) w = f a w'.
Proof. intros H. unfold mbind, M_bind. now rewrite H. Qed.

Lemma bind_raise {A B} (m : M A) (f : A -> M B) w e w' :
  m w = (Raise e, w') -> (m ≫= f) w = (Raise e, w').
Proof. intros H. unfold mbind, M_bind. now rewrite H. Qed.

Lemma ret_bind {A B} (a : A) (f : A -> M B) w : (mret a ≫= f) w = f a w.
Proof. reflexivity. Qed.

Lemma script_call_raises prompt w :
  script_call prompt w = (Raise (TypeError MISSING_SCRIPT_ARGS), w).
Proof. reflexivity. Qed.

Lemma terms_call_raises prompt w :
  terms_call prompt w = (Raise (TypeError MISSING_TERMS_ARGS), w).
Proof. reflexivity. Qed.

(** An attempt whose call raises ends without [break] and without raising. *)
Lemma script_attempt_call_raises (call : M (option string)) fs e w w1 :
  call w = (Raise e, w1) ->
  script_attempt call fs w
  = (Ok (fs, false), logged [Log Error ("failed to generate script: " ++ exn_str e)] w1).
Proof. intros H. unfold script_attempt. rewrite H. reflexivity. Qed.

Lemma script_attempt_total (call : M (option string)) fs w :
  exists r w', script_attempt call fs w = (Ok r, w').
Proof.
  unfold script_attempt. destruct (call w) as [[response|e] w1].
  - unfold mbind, M_bind.
    destruct (not_content response); cbn.
    + destruct (negb (empty fs) && contains QUOTA_MARKER fs); cbn; eauto.
    + destruct (negb (empty _) && contains QUOTA_MARKER _); cbn; eauto.
  - cbn. eauto.
Qed.

Lemma script_loop_total (call : M (option string)) n : forall i fs w,
  exists s w', script_loop call n i fs w = (Ok s, w').
Proof.
  induction n as [|n IH]; intros i fs w; cbn [script_loop].
  - cbn. eauto.
  - destruct (script_attempt_total call fs w) as ([fs' stop] & w1 & E).
    rewrite (bind_ok _ _ _ _ _ E). destruct stop.
    + cbn. eauto.
    + destruct (i <? _max_retries); cbn; apply IH.
Qed.

Lemma generate_script_with_total call subject language n w :
  exists s w', generate_script_with call subject language n w = (Ok s, w').
Proof.
  unfold generate_script_with.
  rewrite (bind_ok _ _ _ _ _ (log_logged _ _ _)).
  destruct (script_loop_total (call (script_prompt subject language n))
              (Z.to_nat _max_retries) 0 EmptyString
              (logged [Log Info ("subject: " ++ subject)] w)) as (s & w1 & E).
  rewrite (bind_ok _ _ _ _ _ E).
  destruct (contains "Error: " s); cbn; eauto.
Qed.

Lemma script_loop_failing (call : M (option string)) e :
  (forall w, call w = (Raise e, w)) ->
  forall n i fs w, i + Z.of_nat n <= _max_retries ->
  script_loop call n i fs w = (Ok fs, logged (script_failures (exn_str e) i n) w).
Proof.
  intros Hcall. induction n as [|n IH]; intros i fs w Hi; cbn [script_loop script_failures].
  - cbn. unfold logged. rewrite app_nil_r. now destruct w.
  - rewrite (bind_ok _ _ _ _ _ (script_attempt_call_raises _ _ _ _ _ (Hcall w))).
    assert ((i <? _max_retries) = true) as -> by (apply Z.ltb_lt; lia).
    rewrite (bind_ok _ _ _ _ _ (log_logged _ _ _)).
    rewrite IH by lia. rewrite !logged_logged. reflexivity.
Qed.

Lemma generate_script_exhausted subject language n w :
  generate_script subject language n w
  = (Ok EmptyString,
     logged ([Log Info ("subject: " ++ subject)]
             ++ script_failures MISSING_SCRIPT_ARGS 0 5
             ++ [Log Success ("completed: " ++ nl)]) w).
Proof.
  unfold generate_script, generate_script_with.
  rewrite (bind_ok _ _ _ _ _ (log_logged _ _ _)).
  erewrite bind_ok.
  2:{ apply (script_loop_failing _ (TypeError MISSING_SCRIPT_ARGS)).
      - intros w'. apply script_call_raises.
      - unfold _max_retries. lia. }
  cbn [contains String.prefix orb].
  rewrite (bind_ok _ _ _ _ _ (log_logged _ _ _)).
  rewrite !logged_logged. reflexivity.
Qed.

Section TermsFacts.
Variable json_loads : string -> result json.

Lemma terms_attempt_call_raises (call : M (option string)) e w w1 :
  call w = (Raise e, w1) ->
  terms_attempt json_loads call (JArr []) (Some EmptyString) w
  = (Ok (Tail (JArr []) (Some EmptyString)),
     logged [Log Warning ("failed to generate video terms: " ++ exn_str e)] w1).
Proof. intros H. unfold terms_attempt. rewrite H. reflexivity. Qed.

Lemma terms_loop_failing (call : M (option string)) e :
  (forall w, call w = (Raise e, w)) ->
  forall n i w, i + Z.of_nat n <= _max_retries ->
  terms_loop json_loads call n i (JArr []) (Some EmptyString) w
  = (Ok (JArr []),
     logged (terms_failures (exn_str e) i n ++ [LogCompleted (JArr [])]) w).
Proof.
  intros Hcall. induction n as [|n IH]; intros i w Hi; cbn [terms_loop terms_failures].
  - reflexivity.
  - rewrite (bind_ok _ _ _ _ _ (terms_attempt_call_raises _ _ _ _ (Hcall w))).
    cbn [json_truthy].
    assert ((i <? _max_retries) = true) as -> by (apply Z.ltb_lt; lia).
    rewrite ret_bind. rewrite (bind_ok _ _ _ _ _ (log_logged _ _ _)).
    rewrite IH by lia. rewrite !logged_logged. reflexivity.
Qed.

Lemma generate_terms_exhausted subject script amount w :
  generate_terms json_loads subject script amount w
  = (Ok (JArr []),
     logged ([Log Info ("subject: " ++ subject)]
             ++ terms_failures MISSING_TERMS_ARGS 0 5
             ++ [LogCompleted (JArr [])]) w).
Proof.
  unfold generate_terms, generate_terms_with.
  rewrite (bind_ok _ _ _ _ _ (log_logged _ _ _)).
  rewrite (terms_loop_failing _ (TypeError MISSING_TERMS_ARGS)).
  - rewrite !logged_logged. reflexivity.
  - intros w'. apply terms_call_raises.
  - unfold _max_retries. lia.
Qed.

End TermsFacts.

(** C4.  Whatever the call of the provider layer does, raising included,
    [generate_script] returns normally.  As written, with configuration
    and services of any kind, [generate_script] goes through its 5 attempts
    (each one logged as failed and followed by the retry warning numbered
    1 to 5) and returns the empty text; [generate_terms] likewise returns
    normally, with the empty list. *)
Theorem generation_never_raises (json_loads : string -> result json)
    (subject language script : string) (paragraph_number amount : Z) (w : world) :
  (forall call, exists s w',
      generate_script_with call subject language paragraph_number w = (Ok s, w'))
  /\ generate_script subject language paragraph_number w
     = (Ok EmptyString,
        logged ([Log Info ("subject: " ++ subject)]
                ++ script_failures MISSING_SCRIPT_ARGS 0 5
                ++ [Log Success ("completed: " ++ nl)]) w)
  /\ generate_terms json_loads subject script amount w
     = (Ok (JArr []),
        logged ([Log Info ("subject: " ++ subject)]
                ++ terms_failures MISSING_TERMS_ARGS 0 5
                ++ [LogCompleted (JArr [])]) w).
Proof.
  split; [|split].
  - intros call. apply generate_script_with_total.
  - apply generate_script_exhausted.
  - apply generate_terms_exhausted.
Qed.

(** C7.  For every input, configuration and behaviour of the services,
    [generate_terms] returns a list of texts.  (Its call of
    [_generate_response] always raises, so the list is the initial empty
    one.) *)
Theorem generate_terms_returns_list_of_text (json_loads : string -> result json)
    (subject script : string) (amount : Z) (w : world) :
  exists (terms : list string) (w' : world),
    generate_terms json_loads subject script amount w = (Ok (JArr (map JStr terms)), w').
Proof. exists []. eexists. apply generate_terms_exhausted. Qed.


End SemanticFacts.

(** ** The transport retry layer *)

Section TransportFacts.
Import Llm.

Lemma validate_required_spec provider cfg model w :
  validate_required provider cfg model w
  = match validation_error provider cfg model with
    | Some msg => (Raise (ValueError msg), logged [Log Error msg] w)
    | None => (Ok tt, w)
    end.
Proof.
  unfold validate_required, validation_error.
  repeat match goal with |- context [if ?b then _ else _] => destruct b end; reflexivity.
Qed.

Lemma generate_response_config_error provider cfg model prompt mr rd msg w :
  LLM_PROVIDERS w !! provider = Some cfg ->
  validation_error provider cfg model = Some msg ->
  _generate_response provider model prompt mr rd w
  = (Raise (ValueError msg),
     logged [Log Info ("Generating response using " ++ provider ++ " with model " ++ model);
             Log Error msg] w).
Proof.
  intros Hcfg Hv. unfold _generate_response.
  rewrite (bind_ok _ _ _ _ _ (log_logged _ _ _)).
  erewrite bind_ok by reflexivity. cbn [logged LLM_PROVIDERS]. rewrite Hcfg.
  erewrite bind_raise; [|rewrite validate_required_spec, Hv; reflexivity].
  now rewrite logged_logged.
Qed.

(** C5, at the failing input: the default configuration, whose OpenAI
    [api_key] is empty.  Called with all its arguments,
    [_generate_response] fails fast: it raises the [ValueError] of the
    check after two log records, without a request or a sleep.
    [generate_script] never gets there: its call leaves [provider] and
    [model] out, so each of its five attempts raises [TypeError] while the
    arguments are bound.  The error logged five times is that one, no
    configuration error is raised or logged, no request is sent, and the
    empty script is returned. *)
Theorem configuration_check_never_reached (answers : nat -> request -> reply)
    (subject language model prompt : string) (n : Z) :
  let w := {| LLM_PROVIDERS := Config.DEFAULT_PROVIDERS; service := answers;
              requests := 0; trace := [] |} in
  _generate_response "openai" model prompt 3 2 w
  = (Raise (ValueError "OpenAI API key not configured"),
     logged [Log Info ("Generating response using openai with model " ++ model);
             Log Error "OpenAI API key not configured"] w)
  /\ generate_script subject language n w
     = (Ok EmptyString,
        logged ([Log Info ("subject: " ++ subject)]
                ++ script_failures MISSING_SCRIPT_ARGS 0 5
                ++ [Log Success ("completed: " ++ nl)]) w)
  /\ count_errors ("failed to generate script: " ++ MISSING_SCRIPT_ARGS)
       (trace (snd (generate_script subject language n w))) = 5%nat
  /\ count_errors "OpenAI API key not configured"
       (trace (snd (generate_script subject language n w))) = 0%nat
  /\ requests (snd (generate_script subject language n w)) = 0%nat.
Proof.
  intros w. split.
  - apply (generate_response_config_error "openai"
             (<["api_key" := VStr EmptyString]>
                (<["base_url" := VStr "https://api.openai.com/v1"]>
                   (<["models" := VList [VStr "gpt-3.5-turbo"; VStr "gpt-4"]]> ∅)))
             model prompt 3 2); reflexivity.
  - rewrite generate_script_exhausted. repeat split; reflexivity.
Qed.

Lemma send_failed req e w :
  service w (requests w) req = Failed e -> send req w = (Raise e, sent req w).
Proof. intros H. unfold send. now rewrite H. Qed.

Lemma try_except_raise {A} (body : M A) (handler : exn -> M A) w e w1 :
  body w = (Raise e, w1) -> try_except body handler w = handler e w1.
Proof. intros H. unfold try_except. now rewrite H. Qed.


(** An attempt whose request fails. *)
Lemma attempt_once_failed provider cfg model prompt req e w :
  request_for provider cfg model prompt = Some req ->
  service w (requests w) req = Failed e ->
  attempt_once provider cfg model prompt w
  = (Raise e, logged (adapter_log provider e) (sent req w)).
Proof.
  unfold request_for, attempt_once, adapter_log. intros Hreq Hfail.
  destruct (String.eqb provider "openai").
  { destruct (cfg !! "api_key") as [key|] eqn:Ek; [|discriminate].
    injection Hreq as <-. apply bind_raise.
    unfold _generate_openai_response. rewrite Ek.
    rewrite (try_except_raise _ _ _ _ _ (send_failed _ _ _ Hfail)).
    now rewrite (bind_ok _ _ _ _ _ (log_logged _ _ _)). }
  destruct (String.eqb provider "g4f").
  { injection Hreq as <-. apply bind_raise.
    unfold _generate_g4f_response.
    rewrite (try_except_raise _ _ _ _ _ (send_failed _ _ _ Hfail)).
    now rewrite (bind_ok _ _ _ _ _ (log_logged _ _ _)). }
  destruct (String.eqb provider "pollinations"); [|discriminate].
  destruct (cfg !! "base_url") as [url|] eqn:Ek; [|discriminate].
  injection Hreq as <-. apply bind_raise.
  unfold _generate_pollinations_response. rewrite Ek.
  rewrite (try_except_raise _ _ _ _ _ (send_failed _ _ _ Hfail)).
  destruct e; try reflexivity.
  - unfold logged, sent. cbn. rewrite app_nil_r. reflexivity.
  - unfold logged, sent. cbn. rewrite app_nil_r. reflexivity.
  - unfold logged, sent. cbn. rewrite app_nil_r. reflexivity.
  - unfold logged, sent. cbn. rewrite app_nil_r. reflexivity.
  - unfold logged, sent. cbn. rewrite app_nil_r. reflexivity.
  - unfold logged, sent. cbn. rewrite app_nil_r. reflexivity.
Qed.

Lemma retry_loop_failed_again k attempt provider cfg model prompt mr rd e w w1 :
  attempt_once provider cfg model prompt w = (Raise e, w1) ->
  attempt < mr - 1 ->
  retry_loop (S k) attempt provider cfg model prompt mr rd w
  = retry_loop k (attempt + 1) provider cfg model prompt mr rd
      (logged [attempt_failed_log attempt mr e; Sleep rd] w1).
Proof.
  intros Hfail Hlt. cbn [retry_loop].
  rewrite (try_except_raise _ _ _ _ _ Hfail).
  rewrite (bind_ok _ _ _ _ _ (log_logged _ _ _)).
  assert ((attempt <? mr - 1) = true) as -> by (apply Z.ltb_lt; lia).
  unfold time_sleep. rewrite (bind_ok _ _ _ _ _ (emit_logged _ _)).
  now rewrite logged_logged.
Qed.

Lemma retry_loop_failed_last k attempt provider cfg model prompt mr rd e w w1 :
  attempt_once provider cfg model prompt w = (Raise e, w1) ->
  mr - 1 <= attempt ->
  retry_loop (S k) attempt provider cfg model prompt mr rd w
  = (Raise (RuntimeError ("Failed to generate response after " ++ str_of_Z mr
                          ++ " attempts: " ++ exn_str e)),
     logged [attempt_failed_log attempt mr e;
             Log Error ("Failed to generate response after " ++ str_of_Z mr
                        ++ " attempts: " ++ exn_str e)] w1).
Proof.
  intros Hfail Hge. cbn [retry_loop].
  rewrite (try_except_raise _ _ _ _ _ Hfail).
  rewrite (bind_ok _ _ _ _ _ (log_logged _ _ _)).
  assert ((attempt <? mr - 1) = false) as -> by (apply Z.ltb_ge; lia).
  rewrite (bind_ok _ _ _ _ _ (log_logged _ _ _)).
  now rewrite logged_logged.
Qed.

Lemma effects_app a b : effects (a ++ b) = (effects a ++ effects b)%list.
Proof. unfold effects. apply filter_app. Qed.

Lemma effects_adapter_log provider e : effects (adapter_log provider e) = [].
Proof.
  unfold adapter_log.
  destruct (String.eqb provider "openai"); [reflexivity|].
  destruct (String.eqb provider "g4f"); [reflexivity|].
  destruct e; reflexivity.
Qed.

(** *** At most [max_retries] requests, whatever the services do *)

Lemma send_requests req w :
  (requests (snd (send req w)) = S (requests w))%nat.
Proof. unfold send. destruct (service w (requests w) req); reflexivity. Qed.

Lemma attempt_once_requests provider cfg model prompt w :
  (requests (snd (attempt_once provider cfg model prompt w)) <= S (requests w))%nat.
Proof.
  assert (Hbind : forall (m : M (option string)),
    (requests (snd (m w)) <= S (requests w))%nat ->
    (requests (snd ((m ≫= fun response =>
        if not_content response then
          log Error "Empty response from LLM" ;; raise (ValueError "Empty response from LLM")
        else mret response) w)) <= S (requests w))%nat).
  { intros m Hm. unfold mbind, M_bind at 1. destruct (m w) as [[a|e] w1]; cbn [snd] in *.
    - destruct (not_content a); cbn; exact Hm.
    - exact Hm. }
  unfold attempt_once. apply Hbind.
  destruct (String.eqb provider "openai").
  { unfold _generate_openai_response, try_except.
    destruct (cfg !! "api_key").
    - pose proof (send_requests (OpenAIChat p model prompt) w) as Hs.
      destruct (send _ w) as [[a|e] w1]; unfold mbind, M_bind, log, emit, raise; cbn in *; lia.
    - unfold mbind, M_bind, log, emit, raise; cbn; lia. }
  destruct (String.eqb provider "g4f").
  { unfold _generate_g4f_response, try_except.
    pose proof (send_requests (G4FChat model prompt) w) as Hs.
    destruct (send _ w) as [[a|e] w1]; unfold mbind, M_bind, log, emit, raise; cbn in *; lia. }
  destruct (String.eqb provider "pollinations").
  { unfold _generate_pollinations_response, try_except.
    destruct (cfg !! "base_url").
    - pose proof (send_requests (PollinationsPost p prompt) w) as Hs.
      destruct (send _ w) as [[a|e] w1]; cbn in *; [lia|].
      destruct e; unfold mbind, M_bind, log, emit, raise; cbn; lia.
    - unfold mbind, M_bind, log, emit, raise; cbn. lia. }
  unfold mbind, M_bind, log, emit, raise; cbn. lia.
Qed.

Lemma retry_loop_requests n : forall attempt provider cfg model prompt mr rd w,
  (requests (snd (retry_loop n attempt provider cfg model prompt mr rd w))
   <= n + requests w)%nat.
Proof.
  induction n as [|n IH]; intros; cbn [retry_loop].
  - cbn. lia.
  - pose proof (attempt_once_requests provider cfg model prompt w) as Ha.
    unfold try_except. destruct (attempt_once _ _ _ _ w) as [[a|e] w1]; cbn [snd] in *.
    + lia.
    + rewrite (bind_ok _ _ _ _ _ (log_logged _ _ _)).
      destruct (attempt <? mr - 1).
      * unfold time_sleep. rewrite (bind_ok _ _ _ _ _ (emit_logged _ _)).
        match goal with |- context [retry_loop n ?a ?p ?c ?m ?q ?x ?y ?ww] =>
          pose proof (IH a p c m q x y ww) as Hr end.
        cbn [requests logged] in Hr. lia.
      * rewrite (bind_ok _ _ _ _ _ (log_logged _ _ _)). cbn. lia.
Qed.

Lemma generate_response_requests provider model prompt mr rd w :
  (requests (snd (_generate_response provider model prompt mr rd w))
   <= Z.to_nat mr + requests w)%nat.
Proof.
  unfold _generate_response.
  rewrite (bind_ok _ _ _ _ _ (log_logged _ _ _)).
  erewrite bind_ok by reflexivity. cbn [logged LLM_PROVIDERS].
  destruct (LLM_PROVIDERS w !! provider) as [cfg|].
  - destruct (validation_error provider cfg model) as [msg|] eqn:Hv.
    + erewrite bind_raise; [|rewrite validate_required_spec, Hv; reflexivity].
      cbn. lia.
    + erewrite bind_ok; [|rewrite validate_required_spec, Hv; reflexivity].
      match goal with |- context [retry_loop ?n ?a ?p ?c ?m ?q ?x ?y ?ww] =>
        pose proof (retry_loop_requests n a p c m q x y ww) as Hr end.
      cbn [requests logged] in Hr. exact Hr.
  - rewrite (bind_ok _ _ _ _ _ (log_logged _ _ _)). cbn. lia.
Qed.

(** C6, as amended.  [_generate_response] sends at most 3 requests, whatever
    the services do.  When the provider is configured and its three
    requests fail, it sends exactly three, sleeps 2 seconds after the first
    and after the second and not after the third, and raises a
    [RuntimeError] whose message gives the number of attempts and the text
    of the last failure. *)
Theorem transport_retry_exhaustion provider cfg model prompt req e0 e1 e2 w :
  LLM_PROVIDERS w !! provider = Some cfg ->
  validation_error provider cfg model = None ->
  request_for provider cfg model prompt = Some req ->
  service w (requests w) req = Failed e0 ->
  service w (1 + requests w)%nat req = Failed e1 ->
  service w (2 + requests w)%nat req = Failed e2 ->
  (forall p0 m0 q0 w0,
     (requests (snd (_generate_response p0 m0 q0 3 2 w0)) <= 3 + requests w0)%nat)
  /\ exists w' evs,
       _generate_response provider model prompt 3 2 w
       = (Raise (RuntimeError ("Failed to generate response after 3 attempts: "
                               ++ exn_str e2)), w')
       /\ requests w' = (3 + requests w)%nat
       /\ trace w' = (trace w ++ evs)%list
       /\ effects evs = [Request req; Sleep 2; Request req; Sleep 2; Request req].
Proof.
  intros Hcfg Hv Hreq H0 H1 H2. split.
  { intros. apply (generate_response_requests p0 m0 q0 3 2 w0). }
  unfold _generate_response.
  rewrite (bind_ok _ _ _ _ _ (log_logged _ _ _)).
  erewrite bind_ok by reflexivity. cbn [logged LLM_PROVIDERS]. rewrite Hcfg.
  erewrite bind_ok; [|rewrite validate_required_spec, Hv; reflexivity].
  change (Z.to_nat 3) with 3%nat.
  erewrite retry_loop_failed_again; [|apply attempt_once_failed; [exact Hreq | exact H0] | lia].
  erewrite retry_loop_failed_again; [|apply attempt_once_failed; [exact Hreq | exact H1] | lia].
  erewrite retry_loop_failed_last; [|apply attempt_once_failed; [exact Hreq | exact H2] | lia].
  eexists _, _. split; [reflexivity|].
  split; [reflexivity|]. cbn [trace logged sent].
  split.
  - rewrite <- !app_assoc. reflexivity.
  - rewrite !effects_app, !effects_adapter_log. reflexivity.
Qed.

(** The statement of C6 for g4f with a service that is down. *)
Lemma transport_retry_exhaustion_witness :
  fst (_generate_response "g4f" "gpt-4" "hello" 3 2 (failing_world (OtherError "down")))
  = Raise (RuntimeError "Failed to generate response after 3 attempts: down").
Proof.
  assert (Hcfg : LLM_PROVIDERS (failing_world (OtherError "down")) !! "g4f"
                 = Some (<["models" := VList [VStr "gpt-3.5-turbo"; VStr "gpt-4"]]> ∅))
    by reflexivity.
  assert (Hv : validation_error "g4f"
                 (<["models" := VList [VStr "gpt-3.5-turbo"; VStr "gpt-4"]]> ∅) "gpt-4" = None)
    by reflexivity.
  assert (Hreq : request_for "g4f"
                   (<["models" := VList [VStr "gpt-3.5-turbo"; VStr "gpt-4"]]> ∅) "gpt-4" "hello"
                 = Some (G4FChat "gpt-4" "hello")) by reflexivity.
  destruct (transport_retry_exhaustion "g4f" _ "gpt-4" "hello" _
              (OtherError "down") (OtherError "down") (OtherError "down")
              (failing_world (OtherError "down")) Hcfg Hv Hreq eq_refl eq_refl eq_refl)
    as (_ & w' & evs & H & _).
  rewrite H. reflexivity.
Defined.

(** C6 as stated fails: the message of the final error does not name the
    provider. *)
Lemma terminal_error_does_not_name_provider :
  fst (_generate_response "g4f" "gpt-4" "hello" 3 2 (failing_world (OtherError "down")))
  = Raise (RuntimeError "Failed to generate response after 3 attempts: down")
  /\ contains "g4f" "Failed to generate response after 3 attempts: down" = false.
Proof. split; vm_compute; reflexivity. Qed.


End TransportFacts.

(** ** Decoding, and script generation as written *)

Section ReplyFacts.
Import Llm.

Lemma forallb_is_vstr l : forallb is_vstr l = true -> exists texts, l = map VStr texts.
Proof.
  induction l as [|[| | |s|] l IH]; simpl; try discriminate.
  - now exists [].
  - intros H. destruct (IH H) as [texts ->]. now exists (s :: texts).
Qed.

Lemma convert_faithful rt v text :
  faithful rt v = true ->
  py_str v = Ok text ->
  RedisState._convert_to_original_type rt text = Ok (Known v).
Proof.
  destruct v as [|[]|z|s|l]; intros H Hs; cbn in H.
  - injection Hs as <-. reflexivity.
  - injection Hs as <-. reflexivity.
  - injection Hs as <-. reflexivity.
  - unfold py_str in Hs. cbn [printable] in Hs. rewrite H in Hs. injection Hs as <-.
    now apply convert_int.
  - injection Hs as <-. unfold RedisState._convert_to_original_type.
    destruct (literal_eval rt s); try discriminate.
    destruct (isdigit rt s); [discriminate | reflexivity].
  - apply forallb_is_vstr in H as [texts ->].
    rewrite py_str_str_list in Hs. injection Hs as <-.
    unfold RedisState._convert_to_original_type, literal_eval.
    change (String "[" (join ", " (map repr_str texts) ++ "]"))
      with ("[" ++ join ", " (map repr_str texts) ++ "]").
    now rewrite literal_fragment_str_list.
Qed.

(** C8, as amended.  When [update_task] of the persisted backend returns,
    a field it was given is stored as the text [str] makes of its value.
    For an integer, a list of texts, [None], a Boolean, and a text that
    [ast.literal_eval] rejects and that is not made of digits, that text
    decodes to the value written, with its type; [get_task] returns exactly
    when every stored field of the task decodes, and then gives that
    value. *)
Theorem redis_round_trip rt task_id state p (kwargs : ODict.t pyval) key v
    (r : RedisState.db) :
  NoDup (ODict.keys kwargs) ->
  ODict.get key kwargs = Some v ->
  faithful rt v = true ->
  fst (RedisState.update_task task_id state p kwargs r) = Ok tt ->
  let r' := snd (RedisState.update_task task_id state p kwargs r) in
  exists text,
    py_str v = Ok text
    /\ RedisState.hgetall task_id r' !! key = Some text
    /\ RedisState._convert_to_original_type rt text = Ok (Known v)
    /\ match redis_field rt task_id key r' with
       | Ok out =>
           decodes rt (RedisState.hgetall task_id r') = true /\ out = Some (Known v)
       | Raise _ => decodes rt (RedisState.hgetall task_id r') = false
       end.
Proof.
  intros Hnd Hk Hf Hok r'.
  assert (Hw : RedisState.write_fields task_id
                 (redis_fields task_id state (Z.min (py_int p) 100) kwargs) r
               = (Ok tt, r')).
  { rewrite <- redis_update_task_unfold. subst r'.
    destruct (RedisState.update_task task_id state p kwargs r) as [res db'].
    cbn in *. now subst res. }
  destruct (write_fields_ok task_id _ _ _ (redis_fields_nodup _ _ _ _) Hw key v)
    as (text & Hs & Hstored).
  { unfold redis_fields. now apply fields_fold_some. }
  exists text. pose proof (convert_faithful rt v text Hf Hs) as Hconv.
  split; [exact Hs|]. split; [exact Hstored|]. split; [exact Hconv|].
  pose proof (redis_field_stored rt task_id key r' _ Hstored) as H.
  destruct (redis_field rt task_id key r') as [out|e]; [|exact H].
  destruct H as (Hd & -> & Hc). split; [exact Hd|].
  rewrite Hconv in Hc. injection Hc as <-. reflexivity.
Qed.

(** The statement of C8 for a list of two texts. *)
Lemma redis_round_trip_witness :
  redis_field strict_runtime "job" "videos"
    (snd (RedisState.update_task "job" 1 100
            [("videos", VList [VStr "/tmp/final-1.mp4"; VStr "it's"])] ∅))
  = Ok (Some (Known (VList [VStr "/tmp/final-1.mp4"; VStr "it's"]))).
Proof.
  assert (Hnd : NoDup (ODict.keys [("videos", VList [VStr "/tmp/final-1.mp4"; VStr "it's"])]))
    by (apply NoDup_singleton).
  destruct (redis_round_trip strict_runtime "job" 1 100
              [("videos", VList [VStr "/tmp/final-1.mp4"; VStr "it's"])] "videos"
              (VList [VStr "/tmp/final-1.mp4"; VStr "it's"]) ∅
              Hnd eq_refl eq_refl eq_refl) as (text & _ & _ & _ & H).
  destruct (redis_field strict_runtime "job" "videos"
              (snd (RedisState.update_task "job" 1 100
                      [("videos", VList [VStr "/tmp/final-1.mp4"; VStr "it's"])] ∅)))
    as [out|e] eqn:E.
  - destruct H as [_ ->]. reflexivity.
  - exfalso. clear E. vm_compute in H. discriminate H.
Defined.

(** C8 as stated fails: the text [123] is read back as the integer 123. *)
Lemma digits_read_back_as_integer :
  fst (RedisState.update_task "job" 1 100 [("title", VStr "123")] ∅) = Ok tt
  /\ redis_field strict_runtime "job" "title"
       (snd (RedisState.update_task "job" 1 100 [("title", VStr "123")] ∅))
     = Ok (Some (Known (VInt 123)))
  /\ Known (VInt 123) <> Known (VStr "123").
Proof. split; [|split]; [vm_compute; reflexivity .. | discriminate]. Qed.

(** *** Script generation, as the call is written *)

(** C9, at the failing input: a provider that answers every request with
    the text of the example.  Asked with all its arguments,
    [_generate_response] returns that text, and [format_response] cleans
    it to the text with two spaces after [world].  [generate_script]
    returns neither: its call leaves [provider] and [model] out, every
    attempt raises [TypeError], no request is sent, and the result is the
    empty text. *)
Theorem script_example_never_requested (subject language prompt : string) (n : Z) :
  let w := answering EXAMPLE_REPLY in
  fst (_generate_response "g4f" "gpt-4" prompt 3 2 w) = Ok (Some EXAMPLE_REPLY)
  /\ format_response EXAMPLE_REPLY = EXAMPLE_CLEANED
  /\ generate_script subject language n w
     = (Ok EmptyString,
        logged ([Log Info ("subject: " ++ subject)]
                ++ script_failures MISSING_SCRIPT_ARGS 0 5
                ++ [Log Success ("completed: " ++ nl)]) w)
  /\ requests (snd (generate_script subject language n w)) = 0%nat
  /\ EmptyString <> EXAMPLE_CLAIMED
  /\ EXAMPLE_CLEANED <> EXAMPLE_CLAIMED.
Proof.
  intros w. split; [reflexivity|]. split; [vm_compute; reflexivity|].
  split; [apply generate_script_exhausted|].
  rewrite generate_script_exhausted.
  split; [reflexivity|]. split; discriminate.
Qed.

(** C10, at the failing input: a provider that answers every request with
    the quota marker.  Asked with all its arguments, [_generate_response]
    returns that text, which still holds the marker after
    [format_response].  [generate_script] never sees it: each of its five
    attempts raises [TypeError] before a request is made, nothing is ever
    assigned to the accumulated script, and the result is the empty text,
    not a text that holds the marker. *)
Theorem quota_marker_never_seen (subject language prompt : string) (n : Z) :
  let w := answering QUOTA_MARKER in
  fst (_generate_response "g4f" "gpt-4" prompt 3 2 w) = Ok (Some QUOTA_MARKER)
  /\ contains QUOTA_MARKER (format_response QUOTA_MARKER) = true
  /\ generate_script subject language n w
     = (Ok EmptyString,
        logged ([Log Info ("subject: " ++ subject)]
                ++ script_failures MISSING_SCRIPT_ARGS 0 5
                ++ [Log Success ("completed: " ++ nl)]) w)
  /\ requests (snd (generate_script subject language n w)) = 0%nat
  /\ contains QUOTA_MARKER EmptyString = false.
Proof.
  intros w. split; [reflexivity|]. split; [vm_compute; reflexivity|].
  split; [apply generate_script_exhausted|].
  rewrite generate_script_exhausted. split; reflexivity.
Qed.


End ReplyFacts.

(** ** The in-process table *)

Section MemoryFacts.
Import MemoryState.

Section TableFacts.
Context {V : Type}.
Implicit Types (d : ODict.t V) (k : string) (v : V).



Lemma odict_keys_del_subset k k' d : In k' (ODict.keys (ODict.del k d)) -> In k' (ODict.keys d).
Proof.
  induction d as [|[k2 v2] d IH]; simpl; [tauto|].
  destruct (String.eqb k k2); simpl; tauto.
Qed.

Lemma odict_nodup_del k d : NoDup (ODict.keys d) -> NoDup (ODict.keys (ODict.del k d)).
Proof.
  induction d as [|[k2 v2] d IH]; simpl; [auto|].
  intros Hnd. apply NoDup_cons in Hnd as [Hnotin Hnd].
  rewrite list_elem_of_In in Hnotin.
  destruct (String.eqb k k2); simpl; [exact Hnd|].
  apply NoDup_cons. split; [|now apply IH].
  rewrite list_elem_of_In. intros Hin. apply Hnotin. eapply odict_keys_del_subset, Hin.
Qed.

End TableFacts.

Lemma update_task_tasks task_id state p kwargs w :
  exists rec,
    tasks (snd (update_task task_id state p kwargs w)) = ODict.set task_id rec (tasks w).
Proof.
  destruct (get_task task_id w) as [r|] eqn:E.
  - rewrite (update_task_old _ _ _ _ _ _ E). eauto.
  - rewrite (update_task_new _ _ _ _ _ E). eauto.
Qed.







(** The keys of the table stay pairwise distinct. *)
Theorem memory_keys_stay_distinct task_id state p kwargs w :
  NoDup (ODict.keys (tasks w)) ->
  NoDup (ODict.keys (tasks (snd (update_task task_id state p kwargs w))))
  /\ NoDup (ODict.keys (tasks (snd (delete_task task_id w)))).
Proof.
  intros Hnd. split.
  - destruct (update_task_tasks task_id state p kwargs w) as [rec ->].
    now apply odict_nodup_set.
  - unfold delete_task. destruct (ODict.get task_id (tasks w)); cbn; [|exact Hnd].
    now apply odict_nodup_del.
Qed.

Lemma one_task_keys : NoDup (ODict.keys (tasks one_task)).
Proof. change (ODict.keys (tasks one_task)) with ["job"]. apply NoDup_singleton. Qed.

Lemma memory_keys_stay_distinct_witness :
  NoDup (ODict.keys (tasks (snd (update_task "job" 1 100 ∅ one_task)))).
Proof. exact (proj1 (memory_keys_stay_distinct "job" 1 100 ∅ one_task one_task_keys)). Defined.





End MemoryFacts.

(** ** Pages of the in-process table, updates of the persisted store *)

Section PageFacts.
Import MemoryState.











(** ** The persisted backend *)










End PageFacts.

(** ** Decoding digits, pages of the persisted store, [StateManager] *)

Section ScanFacts.






(** ** Pages of the persisted backend *)




(** ** [StateManager] *)





End ScanFacts.

(** ** More on the transport retry layer *)

Section RetryFacts.
Import Llm.















End RetryFacts.

(** ** Cleaning a script *)

Section CleaningFacts.
Import Llm.

(** ** [format_response] *)




Lemma sdrop_length_le n s : (String.length (sdrop n s) <= String.length s)%nat.
Proof.
  revert s. induction n as [|n IH]; intros s; [destruct s; simpl; lia|].
  destruct s as [|c r]; simpl; [lia|]. specialize (IH r). lia.
Qed.




Lemma all_chars_append p a b :
  all_chars p (a ++ b) = all_chars p a && all_chars p b.
Proof. induction a as [|c a IH]; simpl; [reflexivity | now rewrite IH, andb_assoc]. Qed.







End CleaningFacts.

(** ** The configuration *)

Section ConfigFacts.











End ConfigFacts.
